(** * Link resolution and caching pipeline of the NDK addon

    A shallow embedding of [src/main.py] (the resolver
    [_get_unrestricted_link], the background orchestrator
    [_process_and_cache_links], the candidate construction of
    [get_results] and the playback resolver [_handle_playback]) and of
    [src/utils/bd.py] (the rewrite lookup [getGood1fichierlink] over the
    static link index), followed by the properties of the specification
    that concern them.

    Asynchronous functions are embedded in a state-and-exception monad
    over a [World] holding the two index tables, the Redis hash
    ["final_links"] and the trace of external effects. *)

From Stdlib Require Import ZArith QArith Bool String List Lia Permutation Sorted.
From stdpp Require Import base option strings gmap list.

#[local] Set Warnings "-register-all".

Local Open Scope string_scope.
Local Open Scope list_scope.

(** ** Python values received from the external services *)

(** The JSON-like values the debrid providers answer with. A dictionary is
    kept as an association list read by its first matching key. *)
Inductive PyVal : Type :=
| PNone
| PBool (b : bool)
| PInt (n : Z)
| PStr (s : string)
| PDict (items : list (string * PyVal)).

(** Python truthiness, as used by [if x:] and [if not x:]. *)
Definition truthy (v : PyVal) : bool :=
  match v with
  | PNone => false
  | PBool b => b
  | PInt n => negb (n =? 0)%Z
  | PStr s => negb (String.eqb s "")
  | PDict items => match items with [] => false | _ :: _ => true end
  end.

(** Truthiness of a [str]. *)
Definition non_empty (s : string) : bool := negb (String.eqb s "").

Fixpoint assoc_get (items : list (string * PyVal)) (key : string) : option PyVal :=
  match items with
  | [] => None
  | (k, v) :: rest => if String.eqb k key then Some v else assoc_get rest key
  end.

(** [needle in s] on Python strings. *)
Fixpoint str_contains (needle s : string) : bool :=
  String.prefix needle s ||
  match s with
  | EmptyString => false
  | String _ s' => str_contains needle s'
  end.

(** ** Exceptions and results *)

(** Every exception of the model is an instance of Python's [Exception],
    hence caught by [except Exception]. *)
Inductive exn : Type :=
| Exception (msg : string)
| AttributeError (msg : string)
| OperationalError (msg : string)
| HTTPException (status_code : Z) (detail : string).

Inductive Res (A : Type) : Type :=
| Ok (a : A)
| Raise (e : exn).
Arguments Ok {A} a.
Arguments Raise {A} e.

Definition HTTP_400_BAD_REQUEST : Z := 400.
Definition HTTP_500_INTERNAL_SERVER_ERROR : Z := 500.

(** ** Configuration, candidates, cache entries *)

(** Modelled from the spec: [utils/parse_config.py] is not part of the
    sources, so the configuration dictionary is given the fields the
    specification lists (size ceiling, quality exclusions, debrid provider
    with its credentials and folder, host base URL). An absent key is
    [None]; [maxSize] holds the value of [int(config['maxSize'])]. Python's
    [==] on two such dictionaries is equality of the records. *)
Record Config : Type := {
  maxSize : option Z;
  selectedQualityExclusion : option (list string);
  service : string;
  debridKey : string;
  debridHttp : option string;
  addonHost : string
}.

#[global] Instance Config_eq_dec : EqDecision Config.
Proof. solve_decision. Defined.

(** The [data] dictionary attached to each link by [get_results]. *)
Record Data : Type := {
  data_link : string;
  filesize : Z;
  quality : string;
  nombre_fichero : option string
}.

#[global] Instance Data_eq_dec : EqDecision Data.
Proof. solve_decision. Defined.

(** The [entry] dictionary stored (as JSON) in the hash ["final_links"]. *)
Record Entry : Type := {
  entry_config : Config;
  entry_link : string;
  entry_final_link : PyVal;
  entry_filesize : Z
}.

(** ** The static link index and the world *)

Inductive Table : Type := enlaces_pelis | enlaces_series.

(** The columns of an index row that the resolver reads and writes. *)
Record Row : Type := {
  row_link : string;
  FLAG : Z;
  enlace_modificado : string
}.

Inductive Event : Type :=
| EvSelect (table : Table) (link : string)
| EvUpdate (table : Table) (url new_link : string)
| EvCopy (link file_name : string)
| EvUnrestrict (debrid_name link : string)
| EvFolder (http_folder : string) (filename : PyVal)
| EvHSet (key : string) (entry : Entry).

(** [trace] lists the external effects, the most recent first. *)
Record World : Type := {
  pelis : list Row;
  series : list Row;
  final_links : gmap string Entry;
  trace : list Event
}.

Definition rows (table : Table) (w : World) : list Row :=
  match table with
  | enlaces_pelis => pelis w
  | enlaces_series => series w
  end.

Definition set_rows (table : Table) (rs : list Row) (w : World) : World :=
  match table with
  | enlaces_pelis =>
      {| pelis := rs; series := series w;
         final_links := final_links w; trace := trace w |}
  | enlaces_series =>
      {| pelis := pelis w; series := rs;
         final_links := final_links w; trace := trace w |}
  end.

Definition log (ev : Event) (w : World) : World :=
  {| pelis := pelis w; series := series w;
     final_links := final_links w; trace := ev :: trace w |}.

Definition set_final_links (m : gmap string Entry) (w : World) : World :=
  {| pelis := pelis w; series := series w;
     final_links := m; trace := trace w |}.

(** ** The monad of asynchronous functions *)

Definition M (A : Type) : Type := World -> Res A * World.

Definition ret {A} (a : A) : M A := fun w => (Ok a, w).

Definition raise {A} (e : exn) : M A := fun w => (Raise e, w).

Definition bind {A B} (m : M A) (k : A -> M B) : M B :=
  fun w =>
    match m w with
    | (Ok a, w') => k a w'
    | (Raise e, w') => (Raise e, w')
    end.

(** [try: body except Exception as e: handler(e)] *)
Definition try_except {A} (body : M A) (handler : exn -> M A) : M A :=
  fun w =>
    match body w with
    | (Ok a, w') => (Ok a, w')
    | (Raise e, w') => handler e w'
    end.

(** An awaited external call: the effect is recorded, then the answer of
    the collaborator is returned or its exception raised. *)
Definition await {A} (ev : Event) (answer : Res A) : M A :=
  fun w => (answer, log ev w).

Notation "x <- m ;; k" := (bind m (fun x => k))
  (at level 100, m at next level, right associativity).
Notation "m ;;; k" := (bind m (fun _ => k))
  (at level 100, right associativity).

(** [d.get(key, default)]; a value that is not a dictionary has no [get]. *)
Definition py_get (d : PyVal) (key : string) (default : PyVal) : M PyVal :=
  match d with
  | PDict items => ret (from_option id default (assoc_get items key))
  | _ => raise (AttributeError "object has no attribute 'get'")
  end.

(** ** utils/bd.py *)

(** [SELECT FLAG, enlace_modificado FROM table WHERE link = ?] followed by
    [fetchone()]. *)
Fixpoint fetchone (rs : list Row) (link : string) : option (Z * string) :=
  match rs with
  | [] => None
  | r :: rest =>
      if String.eqb (row_link r) link
      then Some (FLAG r, enlace_modificado r)
      else fetchone rest link
  end.

Definition select_flag (table : Table) (link : string) : M (option (Z * string)) :=
  fun w => (Ok (fetchone (rows table w) link), log (EvSelect table link) w).

(** [UPDATE table SET enlace_modificado = ?, FLAG = 1 WHERE link = ?] *)
Definition update_row (url new_link : string) (r : Row) : Row :=
  if String.eqb (row_link r) url
  then {| row_link := row_link r; FLAG := 1; enlace_modificado := new_link |}
  else r.

Definition update_table (table : Table) (url new_link : string) : M unit :=
  fun w =>
    (Ok tt,
     log (EvUpdate table url new_link)
         (set_rows table (map (update_row url new_link) (rows table w)) w)).

Definition update_db_movies (url new_link : string) : M unit :=
  update_table enlaces_pelis url new_link.

Definition update_db_series (url new_link : string) : M unit :=
  update_table enlaces_series url new_link.

(** [get_cursor] opens a connection of its own on every use. After
    [fetchone()] a [SELECT] that matched more than one row is still open,
    and the connection of [getGood1fichierlink] keeps its read lock on the
    database file. [update_db_movies] and [update_db_series], called
    meanwhile, write through a second connection: when their [UPDATE]
    changes a row, its commit cannot take the write lock (SQLite's default
    rollback journal), fails with "database is locked", and the update is
    rolled back. An [UPDATE] that changes no row has nothing to write and
    commits. *)
Definition matching_rows (table : Table) (link : string) (w : World) : nat :=
  length (List.filter (fun r => String.eqb (row_link r) link) (rows table w)).

Definition commit_blocked (table : Table) (link url : string) (w : World) : bool :=
  (2 <=? matching_rows table link w)%nat && (1 <=? matching_rows table url w)%nat.

(** An update of the rows of [url], made while the cursor that selected
    the rows of [link] in [table] has fetched one of them. *)
Definition while_selecting (table : Table) (link url : string) (update : M unit)
    : M unit :=
  fun w =>
    if commit_blocked table link url w
    then (Raise (OperationalError "database is locked"), w)
    else update w.

Definition is_1fichier (link : string) : bool := str_contains "1fichier" link.

(** ** Sizes in GiB *)

(** [n / (1024 ** 3)] on Python integers is the binary64 number nearest to
    the quotient, ties to even. Dividing by a power of two only moves the
    exponent, so that number is [n] rounded to 53 significant bits, over
    [2^30]. (Sizes of [2^1054] bytes and more, where Python raises
    [OverflowError], are outside the model.) *)
Definition round53 (n : Z) : Z :=
  if (n <? 2 ^ 53)%Z then n
  else
    let k := (Z.log2 n - 52)%Z in
    let q := Z.shiftr n k in
    let r := Z.land n (Z.ones k) in
    let half := Z.shiftl 1 (k - 1) in
    if (half <? r)%Z || ((r =? half)%Z && Z.odd q)
    then Z.shiftl (q + 1) k
    else Z.shiftl q k.

Definition binary64_of_int (n : Z) : Z := (Z.sgn n * round53 (Z.abs n))%Z.

Definition true_div_gib (n : Z) : Q := binary64_of_int n # 1073741824.

(** [x > c] between a float and an integer: Python compares the exact
    values. *)
Definition float_gt_int (x : Q) (c : Z) : bool := negb (Qle_bool x (inject_Z c)).

(** ** The debrid backend *)

(** An instance of one of the provider classes: the name of its class, its
    configuration and the answers of its two network methods. *)
Record DebridService : Type := {
  class_name : string;
  service_config : Config;
  unrestrict_link : string -> Res PyVal;
  find_link_in_folder : string -> PyVal -> Res PyVal
}.

(** ** The per-link info service *)

(** The [info_data] dictionary of a successful fetch. *)
Record Info : Type := {
  size : option Z;
  filename : option string
}.

(** The tuple answered by [get_file_info]: its second component is
    [info_data] ([None] when it is missing or empty), its third the key
    under which [get_results] files it. *)
Definition InfoTuple : Type := (PyVal * option Info * string)%type.

Section Addon.

(** Collaborators whose code is outside the sources. [copy_file] is the
    promote/copy call of [utils/fichier.py]: it answers a pair
    [(from_url, to_url)], or nothing, or raises. *)
Variable copy_file : string -> string -> Res (option (string * string)).
Variable encodeb64 : string -> string.
Variable decodeb64 : string -> string.
Variable parse_config : string -> Config.
Variable get_debrid_service : Config -> DebridService.
Variable detect_quality : string -> string.
(** [get_file_info i link] is the outcome of the [i]-th task of the
    gathered info requests, issued for [link]. *)
Variable get_file_info : nat -> string -> Res InfoTuple.

(** The loop [for table in ("enlaces_pelis", "enlaces_series")] of
    [getGood1fichierlink]; falling off the loop, or leaving it by [break],
    returns the link itself. *)
Fixpoint getGood1fichierlink_tables (tables : list Table)
    (link file_name : string) : M string :=
  match tables with
  | [] => ret link
  | table :: rest =>
      row <- select_flag table link ;;
      match row with
      | Some (flag, enlace_modificado) =>
          if (flag =? 1)%Z && non_empty enlace_modificado
          then ret enlace_modificado
          else
            result <- await (EvCopy link file_name) (copy_file link file_name) ;;
            match result with
            | Some (from_url, to_url) =>
                while_selecting table link from_url
                  match table with
                  | enlaces_pelis => update_db_movies from_url to_url
                  | enlaces_series => update_db_series from_url to_url
                  end ;;;
                ret to_url
            | None => ret link
            end
      | None => getGood1fichierlink_tables rest link file_name
      end
  end.

Definition getGood1fichierlink (link file_name : string) : M string :=
  if negb (is_1fichier link) then ret link
  else getGood1fichierlink_tables [enlaces_pelis; enlaces_series] link file_name.

(** ** main.py: the resolver *)

(** The body of the [try] block of [_get_unrestricted_link]. *)
Definition _get_unrestricted_link_try (debrid_service : DebridService)
    (original_link file_name : string) : M PyVal :=
  let debrid_name := class_name debrid_service in
  link_to_unrestrict <-
    (if String.eqb debrid_name "RealDebrid"
     then getGood1fichierlink original_link file_name
     else ret original_link) ;;
  unrestricted_data <-
    await (EvUnrestrict debrid_name link_to_unrestrict)
          (unrestrict_link debrid_service link_to_unrestrict) ;;
  if negb (truthy unrestricted_data) then ret PNone
  else if String.eqb debrid_name "RealDebrid" then
    let http_folder := debridHttp (service_config debrid_service) in
    folder_link <-
      match http_folder with
      | Some folder =>
          if non_empty folder then
            unrestricted_filename <- py_get unrestricted_data "filename" PNone ;;
            if truthy unrestricted_filename
            then await (EvFolder folder unrestricted_filename)
                       (find_link_in_folder debrid_service folder unrestricted_filename)
            else ret PNone
          else ret PNone
      | None => ret PNone
      end ;;
    if truthy folder_link then ret folder_link
    else py_get unrestricted_data "download" PNone
  else if String.eqb debrid_name "AllDebrid" then
    data <- py_get unrestricted_data "data" (PDict []) ;;
    py_get data "link" PNone
  else ret (PStr original_link).

Definition _get_unrestricted_link (debrid_service : DebridService)
    (original_link file_name : string) : M PyVal :=
  try_except
    (_get_unrestricted_link_try debrid_service original_link file_name)
    (fun e => ret PNone).

(** ** main.py: the background orchestrator *)

(** The first loop of [_process_and_cache_links]; each [continue] skips the
    candidate. The division stands outside any [try]: where it raises
    [OverflowError] (a size of [2^1054] bytes or so) the orchestrator stops
    before it has resolved or cached anything. The loop is modelled for the
    sizes at which the division returns. *)
Fixpoint valid_results_of (results_data : list (string * Data)) (config : Config)
    : list (string * Data) :=
  match results_data with
  | [] => []
  | (link, data) :: rest =>
      let filesize_gb := true_div_gib (filesize data) in
      if match maxSize config with
         | Some max_size => float_gt_int filesize_gb max_size
         | None => false
         end
      then valid_results_of rest config
      else if match selectedQualityExclusion config with
              | Some exclusion => existsb (String.eqb (quality data)) exclusion
              | None => false
              end
      then valid_results_of rest config
      else (link, data) :: valid_results_of rest config
  end.

(** [valid_results.sort(key=lambda x: x[1].get('filesize', 0), reverse=True)]:
    Python's sort is stable, also with [reverse=True]. An element is
    inserted in front of the first one whose key is not greater than its
    own. *)
Fixpoint insert_desc (x : string * Data) (l : list (string * Data))
    : list (string * Data) :=
  match l with
  | [] => [x]
  | y :: l' =>
      if (filesize (snd x) <? filesize (snd y))%Z
      then y :: insert_desc x l'
      else x :: y :: l'
  end.

Definition sort_by_filesize_desc (l : list (string * Data)) : list (string * Data) :=
  foldr insert_desc [] l.

(** The filter and rank step: what [valid_results] holds after the sort. *)
Definition ranked_results (results_data : list (string * Data)) (config : Config)
    : list (string * Data) :=
  sort_by_filesize_desc (valid_results_of results_data config).

(** [redis_client.hset("final_links", key, json.dumps(entry))] *)
Definition hset_final_links (key : string) (entry : Entry) : M unit :=
  fun w =>
    (Ok tt,
     log (EvHSet key entry) (set_final_links (<[key := entry]> (final_links w)) w)).

(** [redis_client.hget("final_links", key)] followed by [json.loads]. *)
Definition hget_final_links (key : string) : M (option Entry) :=
  fun w => (Ok (final_links w !! key), w).

(** The body of the second loop of [_process_and_cache_links]. *)
Definition cache_link (config : Config) (debrid_service : DebridService)
    (link : string) (data : Data) : M unit :=
  let file_name := from_option id "unknown" (nombre_fichero data) in
  final_link <- _get_unrestricted_link debrid_service link file_name ;;
  if truthy final_link then
    let entry := {| entry_config := config;
                    entry_link := link;
                    entry_final_link := final_link;
                    entry_filesize := filesize data |} in
    let encoded_link := encodeb64 link in
    hset_final_links encoded_link entry
  else ret tt.

Fixpoint cache_links (valid_results : list (string * Data)) (config : Config)
    (debrid_service : DebridService) : M unit :=
  match valid_results with
  | [] => ret tt
  | (link, data) :: rest =>
      cache_link config debrid_service link data ;;;
      cache_links rest config debrid_service
  end.

Definition _process_and_cache_links (results_data : list (string * Data))
    (config : Config) (debrid_service : DebridService) : M unit :=
  cache_links (ranked_results results_data config) config debrid_service.

(** ** main.py: the candidates of a listing *)

(** [tasks] and the gathered [file_infos], exceptions included. *)
Definition tasks_of (search_results : list string) : list string :=
  filter (fun link => is_1fichier link = true) search_results.

Definition file_infos_of (search_results : list string) : list (Res InfoTuple) :=
  imap get_file_info (tasks_of search_results).

(** [{info[2]: info for info in file_infos if not isinstance(info, BaseException)}] *)
Definition info_map_of (file_infos : list (Res InfoTuple)) : gmap string InfoTuple :=
  foldl (fun m info =>
           match info with
           | Ok t => <[t.2 := t]> m
           | Raise _ => m
           end) ∅ file_infos.

(** The body of the loop building [results_data]. *)
Definition data_of (info_map : gmap string InfoTuple) (link : string) : Data :=
  let data := {| data_link := link; filesize := 0; quality := "";
                 nombre_fichero := None |} in
  if is_1fichier link then
    match info_map !! link with
    | Some (_, info_data, _) =>
        match info_data with
        | Some info =>
            let nombre := from_option id "" (filename info) in
            {| data_link := link;
               filesize := from_option id 0%Z (size info);
               quality := detect_quality nombre;
               nombre_fichero := Some nombre |}
        | None => data
        end
    | None => data
    end
  else data.

Definition results_data_of (search_results : list string) : list (string * Data) :=
  let info_map := info_map_of (file_infos_of search_results) in
  map (fun link => (link, data_of info_map link)) search_results.

(** ** main.py: the playback resolver *)

(** The cache lookup of [_handle_playback]: the final link of the entry
    stored under [query] when its configuration equals the requested one. *)
Definition cached_final_link (config : Config) (query : string) : M (option PyVal) :=
  cached_data <- hget_final_links query ;;
  match cached_data with
  | Some cached_data =>
      if bool_decide (entry_config cached_data = config)
      then ret (Some (entry_final_link cached_data))
      else ret None
  | None => ret None
  end.

(** The rest of [_handle_playback], reached when the lookup returned
    nothing. *)
Definition resolve_now (config : Config) (query file_name : string) : M PyVal :=
  let decoded_query := decodeb64 query in
  let decoded_file_name := decodeb64 file_name in
  let debrid_service := get_debrid_service config in
  final_link <- _get_unrestricted_link debrid_service decoded_query decoded_file_name ;;
  if truthy final_link then ret final_link
  else raise (HTTPException HTTP_500_INTERNAL_SERVER_ERROR
                            "No se pudo procesar el enlace.").

Definition _handle_playback (config_str query file_name : string) : M PyVal :=
  if negb (non_empty query)
  then raise (HTTPException HTTP_400_BAD_REQUEST "Query requerido.")
  else
    let config := parse_config config_str in
    hit <- cached_final_link config query ;;
    match hit with
    | Some final_link => ret final_link
    | None => resolve_now config query file_name
    end.

End Addon.

(** ** Observations on worlds and traces *)

(** The row the rewrite lookup reads for [link]: the first match of the
    movie table, else of the series table. *)
Definition index_row (w : World) (link : string) : option (Table * (Z * string)) :=
  match fetchone (pelis w) link with
  | Some r => Some (enlaces_pelis, r)
  | None =>
      match fetchone (series w) link with
      | Some r => Some (enlaces_series, r)
      | None => None
      end
  end.

(** The world once the lookup has found the row of [link] in [table]: the
    tables before it were queried in vain. *)
Definition selected (table : Table) (link : string) (w : World) : World :=
  match table with
  | enlaces_pelis => log (EvSelect enlaces_pelis link) w
  | enlaces_series =>
      log (EvSelect enlaces_series link) (log (EvSelect enlaces_pelis link) w)
  end.

Definition is_copy (ev : Event) : bool :=
  match ev with EvCopy _ _ => true | _ => false end.

Definition is_hset (ev : Event) : bool :=
  match ev with EvHSet _ _ => true | _ => false end.

(** Number of promote/copy calls, and of cache writes, recorded in a trace. *)
Definition copy_calls (tr : list Event) : nat := length (List.filter is_copy tr).
Definition cache_writes (tr : list Event) : nat := length (List.filter is_hset tr).

(** ** Notions used to state the properties *)

(** The entry the orchestrator builds for a candidate. *)
Definition entry_of (config : Config) (link : string) (data : Data)
    (final_link : PyVal) : Entry :=
  {| entry_config := config;
     entry_link := link;
     entry_final_link := final_link;
     entry_filesize := filesize data |}.

Definition file_name_of (data : Data) : string :=
  from_option id "unknown" (nombre_fichero data).

(** A computation that leaves the cache alone: the hash is unchanged and
    no cache write is recorded. *)
Definition keeps_cache {A} (m : M A) : Prop :=
  forall w,
    final_links (snd (m w)) = final_links w
    /\ cache_writes (trace (snd (m w))) = cache_writes (trace w).

(** A computation that does not read the cache: run over another content
    of the hash it gives the same result and the same changes. *)
Definition cache_blind {A} (m : M A) : Prop :=
  forall cache w,
    m (set_final_links cache w)
    = (fst (m w), set_final_links cache (snd (m w))).

(** The two tests of the first loop as propositions, on the values the
    code compares: the float [true_div_gib] of the size is not greater than
    the ceiling when [maxSize] is present, and the quality label is not in
    the exclusion list when one is present. *)
Definition within_ceiling (config : Config) (data : Data) : Prop :=
  forall max_size, maxSize config = Some max_size ->
    (true_div_gib (filesize data) <= inject_Z max_size)%Q.

Definition not_excluded (config : Config) (data : Data) : Prop :=
  forall exclusion, selectedQualityExclusion config = Some exclusion ->
    ~ In (quality data) exclusion.

Definition survives (config : Config) (c : string * Data) : Prop :=
  within_ceiling config (snd c) /\ not_excluded config (snd c).

(** Largest first. *)
Definition by_size_desc (a b : string * Data) : Prop :=
  (filesize (snd b) <= filesize (snd a))%Z.

Definition has_size (s : Z) (c : string * Data) : Prop := filesize (snd c) = s.

(** The test of the first loop as one boolean. *)
Definition passes (config : Config) (c : string * Data) : bool :=
  negb match maxSize config with
       | Some max_size => float_gt_int (true_div_gib (filesize (snd c))) max_size
       | None => false
       end
  && negb match selectedQualityExclusion config with
          | Some exclusion => existsb (String.eqb (quality (snd c))) exclusion
          | None => false
          end.

#[global] Instance within_ceiling_dec (config : Config) (data : Data) :
  Decision (within_ceiling config data).
Proof.
  unfold within_ceiling. destruct (maxSize config) as [m|].
  - destruct (Qlt_le_dec (inject_Z m) (true_div_gib (filesize data))) as [H|H].
    + right. intros Hc. exact (Qlt_not_le _ _ H (Hc m eq_refl)).
    + left. intros c E. injection E as <-. exact H.
  - left. intros c E. discriminate.
Defined.

#[global] Instance not_excluded_dec (config : Config) (data : Data) :
  Decision (not_excluded config data).
Proof.
  unfold not_excluded. destruct (selectedQualityExclusion config) as [ex|].
  - destruct (in_dec string_dec (quality data) ex) as [H|H].
    + right. intros Hc. exact (Hc ex eq_refl H).
    + left. intros c E. injection E as <-. exact H.
  - left. intros c E. discriminate.
Defined.

#[global] Instance survives_dec (config : Config) (c : string * Data) :
  Decision (survives config c).
Proof. unfold survives. apply _. Defined.

#[global] Instance has_size_dec (s : Z) (c : string * Data) : Decision (has_size s c).
Proof. unfold has_size. apply _. Defined.

(** Modelled from the spec: [size_gb = size_bytes / 2^30], a fraction that
    is not rounded before it is compared. *)
Definition size_gb (data : Data) : Q := filesize data # 1073741824.

(** Modelled from the spec: a candidate satisfies both active filters when
    its size in GiB does not exceed the configured ceiling, if a ceiling is
    configured, and its quality label is not in the configured exclusion
    set, if one is configured. *)
Definition satisfies_filters (config : Config) (c : string * Data) : Prop :=
  (forall ceiling, maxSize config = Some ceiling ->
     (size_gb (snd c) <= inject_Z ceiling)%Q)
  /\ (forall exclusion, selectedQualityExclusion config = Some exclusion ->
        ~ In (quality (snd c)) exclusion).

#[global] Instance satisfies_filters_dec (config : Config) (c : string * Data) :
  Decision (satisfies_filters config c).
Proof.
  unfold satisfies_filters. apply and_dec; [|apply not_excluded_dec].
  destruct (maxSize config) as [m|].
  - destruct (Qlt_le_dec (inject_Z m) (size_gb (snd c))) as [H|H].
    + right. intros Hc. exact (Qlt_not_le _ _ H (Hc m eq_refl)).
    + left. intros ceiling E. injection E as <-. exact H.
  - left. intros ceiling E. discriminate.
Defined.

(** A size that binary64 holds exactly: at most [2^53] bytes. *)
Definition exact_size (c : string * Data) : Prop :=
  (Z.abs (filesize (snd c)) <= 2 ^ 53)%Z.

(** A fetch that raised, or that answered without [info_data]. *)
Definition fetch_failed (r : Res InfoTuple) : Prop :=
  match r with
  | Raise _ => True
  | Ok t => t.1.2 = None
  end.

(** The [data] a link starts with. *)
Definition default_data (link : string) : Data :=
  {| data_link := link; filesize := 0; quality := ""; nombre_fichero := None |}.

(** ** Concrete collaborators, worlds and candidates *)

Module Ex.

Definition fichier_link : string := "https://1fichier.com/?abc123".
Definition other_link : string := "https://example.org/video.mkv".
Definition copied_link : string := "https://1fichier.com/?copied".

(** A promote/copy service that succeeds, and one that answers nothing. *)
Definition copy_ok : string -> string -> Res (option (string * string)) :=
  fun link _ => Ok (Some (link, copied_link)).
Definition copy_none : string -> string -> Res (option (string * string)) :=
  fun _ _ => Ok None.

(** The index holds one movie row, not rewritten yet; the cache is empty. *)
Definition world : World :=
  {| pelis := [ {| row_link := fichier_link; FLAG := 0; enlace_modificado := "" |} ];
     series := [];
     final_links := ∅;
     trace := [] |}.

Definition config_a : Config :=
  {| maxSize := Some 10%Z; selectedQualityExclusion := Some ["CAM"];
     service := "RealDebrid"; debridKey := "key-a"; debridHttp := None;
     addonHost := "https://addon.example" |}.

Definition config_b : Config :=
  {| maxSize := Some 4%Z; selectedQualityExclusion := None;
     service := "RealDebrid"; debridKey := "key-b"; debridHttp := None;
     addonHost := "https://addon.example" |}.

Definition parse_config (config_str : string) : Config :=
  if String.eqb config_str "A" then config_a else config_b.

(** A RealDebrid backend whose unlock endpoint answers a download URL. *)
Definition real_debrid (config : Config) : DebridService :=
  {| class_name := "RealDebrid";
     service_config := config;
     unrestrict_link := fun link =>
       Ok (PDict [("filename", PStr "Movie.1080p.mkv");
                  ("download", PStr ("https://rd.example/d/" ++ link))]);
     find_link_in_folder := fun _ _ => Ok PNone |}.

(** A backend of another class whose unlock endpoint answers nothing, and
    one whose unlock endpoint answers. *)
Definition premiumize_silent : DebridService :=
  {| class_name := "Premiumize";
     service_config := config_a;
     unrestrict_link := fun _ => Ok PNone;
     find_link_in_folder := fun _ _ => Ok PNone |}.

Definition premiumize : DebridService :=
  {| class_name := "Premiumize";
     service_config := config_a;
     unrestrict_link := fun link => Ok (PDict [("location", PStr link)]);
     find_link_in_folder := fun _ _ => Ok PNone |}.

(** A backend whose unlock endpoint fails. *)
Definition all_debrid_down : DebridService :=
  {| class_name := "AllDebrid";
     service_config := config_a;
     unrestrict_link := fun _ => Raise (Exception "503 Service Unavailable");
     find_link_in_folder := fun _ _ => Ok PNone |}.

Definition b64 (s : string) : string := "b64:" ++ s.
Definition unb64 (s : string) : string := String.substring 4 (String.length s - 4) s.

Definition gib : Z := 1073741824.

Definition movie : Data :=
  {| data_link := fichier_link; filesize := 5 * gib; quality := "1080p";
     nombre_fichero := Some "Movie.1080p.mkv" |}.

Definition small : Data :=
  {| data_link := other_link; filesize := 0; quality := "";
     nombre_fichero := None |}.

Definition cam : Data :=
  {| data_link := "https://1fichier.com/?cam"; filesize := 2 * gib;
     quality := "CAM"; nombre_fichero := Some "Movie.CAM.avi" |}.

Definition twin : Data :=
  {| data_link := "https://1fichier.com/?twin"; filesize := 5 * gib;
     quality := "720p"; nombre_fichero := Some "Movie.720p.mkv" |}.

(** A candidate of 2^53 + 1 bytes. *)
Definition huge : Data :=
  {| data_link := fichier_link; filesize := 2 ^ 53 + 1; quality := "";
     nombre_fichero := None |}.

Definition config_huge : Config :=
  {| maxSize := Some 8388608%Z; selectedQualityExclusion := None;
     service := "RealDebrid"; debridKey := "key-a"; debridHttp := None;
     addonHost := "https://addon.example" |}.

(** The entry cached for the movie under configuration A. *)
Definition entry_a : Entry :=
  {| entry_config := config_a; entry_link := fichier_link;
     entry_final_link := PStr "https://rd.example/d/cached";
     entry_filesize := 5 * gib |}.

Definition world_cached : World :=
  {| pelis := pelis world; series := [];
     final_links := {[ b64 fichier_link := entry_a ]};
     trace := [] |}.

Definition detect_quality (file_name : string) : string :=
  if str_contains "1080p" file_name then "1080p" else "".

(** An info service that fails for [fichier_link] and answers for any
    other link. *)
Definition get_file_info (i : nat) (link : string) : Res InfoTuple :=
  if String.eqb link fichier_link then Raise (Exception "timeout")
  else Ok (PStr "OK",
           Some {| size := Some (5 * gib)%Z; filename := Some "Movie.1080p.mkv" |},
           link).

End Ex.

(** ** Further observations *)

Definition is_unrestrict (ev : Event) : bool :=
  match ev with EvUnrestrict _ _ => true | _ => false end.

Definition is_select (ev : Event) : bool :=
  match ev with EvSelect _ _ => true | _ => false end.

(** The unlock calls and the index queries recorded in a trace, the most
    recent first. *)
Definition unlock_calls (tr : list Event) : list Event := List.filter is_unrestrict tr.
Definition select_calls (tr : list Event) : list Event := List.filter is_select tr.

(** A computation all of whose runs relate the world before to the world
    after. *)
Definition respects (R : World -> World -> Prop) {A} (m : M A) : Prop :=
  forall w, R w (snd (m w)).

(** The two tables hold the same links, row by row. *)
Definition same_links (w w' : World) : Prop :=
  map row_link (pelis w') = map row_link (pelis w)
  /\ map row_link (series w') = map row_link (series w).

(** Every cached entry carries a truthy final link. *)
Definition cache_playable (w : World) : Prop :=
  forall key entry, final_links w !! key = Some entry ->
    truthy (entry_final_link entry) = true.

(** An entry of the run's configuration with a truthy final link sits
    under [key]. *)
Definition served (config : Config) (key : string) (w : World) : Prop :=
  exists entry,
    final_links w !! key = Some entry
    /\ entry_config entry = config
    /\ truthy (entry_final_link entry) = true.

(** ** main.py: the availability check of 1fichier on Real-Debrid *)

Definition FICHIER_STATUS_KEY : string := "rd_1fichier_status".

Section HostStatus.

(** [str.lower]. *)
Variable lower : string -> string.

(** The loop over [hosts_status.items()]: the status it leaves, or the
    exception it raises. Only the first host whose lowered name contains
    "1fichier" is looked at ([break]). *)
Fixpoint scan_hosts (items : list (string * PyVal)) : Res string :=
  match items with
  | [] => Ok "up"
  | (host_domain, info) :: rest =>
      if str_contains "1fichier" (lower host_domain) then
        match info with
        | PDict fields =>
            match from_option id (PStr "") (assoc_get fields "status") with
            | PStr status =>
                if negb (String.eqb (lower status) "up") then Ok "down" else Ok "up"
            | _ => Raise (AttributeError "object has no attribute 'lower'")
            end
        | _ => Raise (AttributeError "object has no attribute 'get'")
        end
      else scan_hosts rest
  end.

(** The status the [finally] clause stores: [response] is the outcome of
    the request, [raise_for_status] and [json()]; any exception leaves the
    initial "up". *)
Definition checked_status (response : Res PyVal) : string :=
  match response with
  | Ok (PDict items) =>
      match scan_hosts items with
      | Ok status => status
      | Raise _ => "up"
      end
  | Ok _ => "up"
  | Raise _ => "up"
  end.

(** [check_real_debrid_1fichier_availability] on the value held by Redis
    under [FICHIER_STATUS_KEY] ([None] when the key is absent or expired). *)
Definition check_real_debrid_1fichier_availability (DEBRID_API_KEY : string)
    (response : Res PyVal) (stored : option string) : option string :=
  if negb (non_empty DEBRID_API_KEY) then stored
  else Some (checked_status response).

End HostStatus.

(** [await redis_client.get(FICHIER_STATUS_KEY) or "up"] and the flag
    [fichier_is_up] that [get_results] derives from it. *)
Definition fichier_status_rd (stored : option string) : string :=
  match stored with
  | Some status => if non_empty status then status else "up"
  | None => "up"
  end.

Definition fichier_is_up (stored : option string) : bool :=
  String.eqb (fichier_status_rd stored) "up".

(** A host entry that counts as down: a dictionary whose status, lowered,
    is a string other than "up". *)
Definition reports_down (lower : string -> string) (info : PyVal) : Prop :=
  exists fields status,
    info = PDict fields
    /\ from_option id (PStr "") (assoc_get fields "status") = PStr status
    /\ lower status <> "up".

Module Ex2.

(** ASCII lowering, enough for host names. *)
Definition lower_ascii (c : Ascii.ascii) : Ascii.ascii :=
  let n := Ascii.nat_of_ascii c in
  if (65 <=? n)%nat && (n <=? 90)%nat then Ascii.ascii_of_nat (n + 32) else c.

Fixpoint lower (s : string) : string :=
  match s with
  | EmptyString => EmptyString
  | String c s' => String (lower_ascii c) (lower s')
  end.

Definition hosts_down : PyVal :=
  PDict [("uptobox.com", PDict [("status", PStr "up")]);
         ("1Fichier.com", PDict [("status", PStr "Down")]);
         ("alterupload.com (1fichier)", PDict [("status", PStr "up")])].

(** The index holds the movie link already rewritten. *)
Definition world_rewritten : World :=
  {| pelis := [ {| row_link := Ex.fichier_link; FLAG := 1;
                   enlace_modificado := Ex.copied_link |} ];
     series := [];
     final_links := ∅;
     trace := [] |}.


(** A promote/copy service that raises, and one that reports another
    source link than the one it was asked about. *)
Definition copy_raises : string -> string -> Res (option (string * string)) :=
  fun _ _ => Raise (Exception "connection reset").

(** An AllDebrid backend that answers. *)
Definition all_debrid : DebridService :=
  {| class_name := "AllDebrid";
     service_config := Ex.config_a;
     unrestrict_link := fun link =>
       Ok (PDict [("status", PStr "success");
                  ("data", PDict [("link", PStr ("https://ad.example/" ++ link))])]);
     find_link_in_folder := fun _ _ => Ok PNone |}.

Definition config_folder : Config :=
  {| maxSize := None; selectedQualityExclusion := None;
     service := "RealDebrid"; debridKey := "key-a";
     debridHttp := Some "https://my.real-debrid.example/folder/";
     addonHost := "https://addon.example" |}.

(** A RealDebrid backend with a folder in which nothing is found. *)
Definition real_debrid_folder : DebridService :=
  {| class_name := "RealDebrid";
     service_config := config_folder;
     unrestrict_link := fun link =>
       Ok (PDict [("filename", PStr "Movie.1080p.mkv");
                  ("download", PStr ("https://rd.example/d/" ++ link))]);
     find_link_in_folder := fun _ _ => Ok PNone |}.

Definition candidates : list (string * Data) :=
  [(Ex.other_link, Ex.small); ("https://1fichier.com/?cam", Ex.cam);
   (Ex.fichier_link, Ex.movie); ("https://1fichier.com/?twin", Ex.twin)].

(** Two candidates, the smaller one first. *)
Definition smaller_first : list (string * Data) :=
  [("https://1fichier.com/?cam", Ex.cam); (Ex.fichier_link, Ex.movie)].

(** An info service that answers for every link. *)
Definition get_file_info_ok (i : nat) (link : string) : Res InfoTuple :=
  Ok (PStr "OK",
      Some {| size := Some (Z.of_nat i + 1)%Z; filename := Some "Movie.1080p.mkv" |},
      link).

(** Configuration B with its ceiling raised to 10. *)
Definition config_b10 : Config :=
  {| maxSize := Some 10%Z; selectedQualityExclusion := None;
     service := "RealDebrid"; debridKey := "key-b"; debridHttp := None;
     addonHost := "https://addon.example" |}.

Definition unknown_link : string := "https://1fichier.com/?unknown".

End Ex2.

(** * Properties *)

Section RewriteLookup.

Variable copy_file : string -> string -> Res (option (string * string)).

Lemma fetchone_update_same (rs : list Row) (link new_link : string) (r : Z * string) :
  fetchone rs link = Some r ->
  fetchone (map (update_row link new_link) rs) link = Some (1%Z, new_link).
Proof.
  induction rs as [|x rs IH]; simpl; [discriminate|].
  unfold update_row at 1 2 3.
  destruct (String.eqb (row_link x) link) eqn:E; simpl; rewrite E.
  - reflexivity.
  - exact IH.
Qed.

Lemma fetchone_update_none (rs : list Row) (url link new_link : string) :
  fetchone rs link = None ->
  fetchone (map (update_row url new_link) rs) link = None.
Proof.
  induction rs as [|x rs IH]; simpl; [reflexivity|].
  destruct (String.eqb (row_link x) link) eqn:E; [discriminate|].
  intros H. unfold update_row at 1.
  destruct (String.eqb (row_link x) url); simpl; rewrite E; auto.
Qed.

(** A link whose index row already carries a rewrite is answered from the
    row: one [SELECT] per table read, nothing else. *)
Lemma getGood1fichierlink_stored (cf : string -> string -> Res (option (string * string)))
    (link file_name : string) (w : World) (t : Table) (em : string) :
  is_1fichier link = true ->
  index_row w link = Some (t, (1%Z, em)) ->
  non_empty em = true ->
  exists w', getGood1fichierlink cf link file_name w = (Ok em, w')
    /\ copy_calls (trace w') = copy_calls (trace w)
    /\ pelis w' = pelis w /\ series w' = series w.
Proof.
  intros H1 Hrow Hne. unfold getGood1fichierlink. rewrite H1. simpl.
  unfold index_row in Hrow. unfold bind, select_flag. simpl.
  destruct (fetchone (pelis w) link) as [[f e]|] eqn:Ep.
  - inversion Hrow; subst. simpl. rewrite Hne. simpl.
    eexists. split; [reflexivity|]. simpl. auto.
  - destruct (fetchone (series w) link) as [[f e]|] eqn:Es; [|discriminate].
    inversion Hrow; subst. simpl. rewrite Es. simpl. rewrite Hne. simpl.
    eexists. split; [reflexivity|]. simpl. auto.
Qed.

(** The lookup of a link that the index holds, case by case. *)
Lemma getGood1fichierlink_on_row
    (cf : string -> string -> Res (option (string * string)))
    (link file_name : string) (w : World) (t : Table) (flag : Z) (em : string) :
  is_1fichier link = true ->
  index_row w link = Some (t, (flag, em)) ->
  getGood1fichierlink cf link file_name w
  = if (flag =? 1)%Z && non_empty em then (Ok em, selected t link w)
    else
      let w1 := log (EvCopy link file_name) (selected t link w) in
      match cf link file_name with
      | Ok (Some (from_url, to_url)) =>
          if commit_blocked t link from_url w
          then (Raise (OperationalError "database is locked"), w1)
          else (Ok to_url, snd (update_table t from_url to_url w1))
      | Ok None => (Ok link, w1)
      | Raise e => (Raise e, w1)
      end.
Proof.
  intros H1 Hrow. unfold getGood1fichierlink. rewrite H1. simpl.
  unfold index_row in Hrow. unfold bind, select_flag, await. simpl.
  destruct (fetchone (pelis w) link) as [[f e]|] eqn:Ep.
  - inversion Hrow; subst. simpl.
    destruct ((flag =? 1)%Z && non_empty em); [reflexivity|].
    destruct (cf link file_name) as [[[from_url to_url]|]|err]; try reflexivity.
    unfold while_selecting.
    change (commit_blocked enlaces_pelis link from_url
              (log (EvCopy link file_name) (log (EvSelect enlaces_pelis link) w)))
      with (commit_blocked enlaces_pelis link from_url w).
    destruct (commit_blocked enlaces_pelis link from_url w); reflexivity.
  - destruct (fetchone (series w) link) as [[f e]|] eqn:Es; [|discriminate].
    inversion Hrow; subst. simpl. rewrite Es. simpl.
    destruct ((flag =? 1)%Z && non_empty em); [reflexivity|].
    destruct (cf link file_name) as [[[from_url to_url]|]|err]; try reflexivity.
    unfold while_selecting.
    change (commit_blocked enlaces_series link from_url
              (log (EvCopy link file_name)
                 (log (EvSelect enlaces_series link)
                    (log (EvSelect enlaces_pelis link) w))))
      with (commit_blocked enlaces_series link from_url w).
    destruct (commit_blocked enlaces_series link from_url w); reflexivity.
Qed.

(** What the lookup does on a row that carries no rewrite yet, by the
    answer of the promote/copy call. *)
Lemma getGood1fichierlink_fresh (link file_name : string) (w : World)
    (t : Table) (flag : Z) (em : string) :
  is_1fichier link = true ->
  index_row w link = Some (t, (flag, em)) ->
  (flag =? 1)%Z && non_empty em = false ->
  exists w', snd (getGood1fichierlink copy_file link file_name w) = w'
    /\ copy_calls (trace w') = S (copy_calls (trace w))
    /\ match copy_file link file_name with
       | Ok (Some (from_url, to_url)) =>
           if commit_blocked t link from_url w
           then fst (getGood1fichierlink copy_file link file_name w)
                = Raise (OperationalError "database is locked")
                /\ pelis w' = pelis w /\ series w' = series w
           else fst (getGood1fichierlink copy_file link file_name w) = Ok to_url
                /\ rows t w' = map (update_row from_url to_url) (rows t w)
                /\ (forall t', t' <> t -> rows t' w' = rows t' w)
       | Ok None =>
           fst (getGood1fichierlink copy_file link file_name w) = Ok link
           /\ pelis w' = pelis w /\ series w' = series w
       | Raise e =>
           fst (getGood1fichierlink copy_file link file_name w) = Raise e
           /\ pelis w' = pelis w /\ series w' = series w
       end.
Proof.
  intros H1 Hrow Hfl.
  rewrite (getGood1fichierlink_on_row copy_file link file_name w t flag em H1 Hrow).
  rewrite Hfl. cbv zeta.
  destruct (copy_file link file_name) as [[[from_url to_url]|]|err].
  - destruct (commit_blocked t link from_url w);
      eexists; (split; [reflexivity|]); destruct t; simpl; repeat split; auto.
    + intros [] Ht; [congruence|reflexivity].
    + intros [] Ht; [reflexivity|congruence].
  - eexists. split; [reflexivity|]. destruct t; simpl; repeat split; auto.
  - eexists. split; [reflexivity|]. destruct t; simpl; repeat split; auto.
Qed.

Lemma index_row_update (w w' : World) (t : Table) (link to_url : string)
    (r : Z * string) :
  index_row w link = Some (t, r) ->
  rows t w' = map (update_row link to_url) (rows t w) ->
  (forall t', t' <> t -> rows t' w' = rows t' w) ->
  index_row w' link = Some (t, (1%Z, to_url)).
Proof.
  unfold index_row. intros Hrow Ht Hother.
  destruct (fetchone (pelis w) link) as [r0|] eqn:Ep.
  - inversion Hrow; subst. simpl in Ht. rewrite Ht.
    rewrite (fetchone_update_same _ _ _ _ Ep). reflexivity.
  - destruct (fetchone (series w) link) as [r0|] eqn:Es; [|discriminate].
    inversion Hrow; subst. simpl in Ht.
    assert (Hp : pelis w' = pelis w) by (apply (Hother enlaces_pelis); discriminate).
    rewrite Hp, Ep, Ht. rewrite (fetchone_update_same _ _ _ _ Es). reflexivity.
Qed.

(** C10. A link that does not contain "1fichier" is returned unchanged by
    the rewrite lookup, and the world is left as it was: no query on the
    static index, no promote/copy call. *)
Theorem getGood1fichierlink_other_host (link file_name : string) (w : World) :
  is_1fichier link = false ->
  getGood1fichierlink copy_file link file_name w = (Ok link, w).
Proof.
  intros H. unfold getGood1fichierlink. rewrite H. reflexivity.
Qed.

(** C5 (amended). For a 1fichier link present in the static index: when
    its row carries a rewrite (flag 1 and a non-empty replacement) the
    lookup returns the stored replacement, issues no promote/copy call and
    leaves the index as it is. Otherwise it issues exactly one promote/copy
    call. When that call answers the original link with a non-empty
    replacement and the link has a single row in its table, the replacement
    is returned and stored with the flag set in the row of the original
    link, and a second lookup of the link, with any file name and any
    promote/copy service, returns the replacement with no further call.
    When the call answers nothing, the original link is returned and the
    index is left as it is. *)
Theorem getGood1fichierlink_rewrite (link file_name : string) (w : World)
    (t : Table) (flag : Z) (em : string) :
  is_1fichier link = true ->
  index_row w link = Some (t, (flag, em)) ->
  let r := fst (getGood1fichierlink copy_file link file_name w) in
  let w' := snd (getGood1fichierlink copy_file link file_name w) in
  if (flag =? 1)%Z && non_empty em
  then r = Ok em
       /\ copy_calls (trace w') = copy_calls (trace w)
       /\ pelis w' = pelis w /\ series w' = series w
  else copy_calls (trace w') = S (copy_calls (trace w))
       /\ (forall to_url,
             copy_file link file_name = Ok (Some (link, to_url)) ->
             non_empty to_url = true ->
             matching_rows t link w = 1%nat ->
             r = Ok to_url
             /\ rows t w' = map (update_row link to_url) (rows t w)
             /\ index_row w' link = Some (t, (1%Z, to_url))
             /\ forall cf2 file_name2,
                  let r2 := fst (getGood1fichierlink cf2 link file_name2 w') in
                  let w2 := snd (getGood1fichierlink cf2 link file_name2 w') in
                  r2 = Ok to_url
                  /\ copy_calls (trace w2) = copy_calls (trace w')
                  /\ pelis w2 = pelis w' /\ series w2 = series w')
       /\ (copy_file link file_name = Ok None ->
             r = Ok link /\ pelis w' = pelis w /\ series w' = series w).
Proof.
  intros H1 Hrow r w'.
  destruct ((flag =? 1)%Z && non_empty em) eqn:Hfl.
  - apply andb_prop in Hfl as [Hf Hne]. apply Z.eqb_eq in Hf. subst flag.
    destruct (getGood1fichierlink_stored copy_file link file_name w t em H1 Hrow Hne)
      as (w1 & E & Hc & Hp & Hs).
    subst r w'. rewrite E. simpl. auto.
  - destruct (getGood1fichierlink_fresh link file_name w t flag em H1 Hrow Hfl)
      as (w1 & E & Hc & Hcase).
    fold w' in E. subst w1. split; [exact Hc|]. split.
    + intros to_url Hcopy Hne Hone. rewrite Hcopy in Hcase.
      assert (Hfree : commit_blocked t link link w = false)
        by (unfold commit_blocked; rewrite Hone; reflexivity).
      rewrite Hfree in Hcase.
      destruct Hcase as (Hr & Ht & Hother).
      assert (Hrow' : index_row w' link = Some (t, (1%Z, to_url)))
        by exact (index_row_update w w' t link to_url _ Hrow Ht Hother).
      repeat split; auto.
      all: destruct (getGood1fichierlink_stored cf2 link file_name2 w' t to_url
                       H1 Hrow' Hne) as (w2 & E2 & Hc2 & Hp2 & Hs2);
        rewrite E2; simpl; auto.
    + intros Hcopy. rewrite Hcopy in Hcase. exact Hcase.
Qed.

End RewriteLookup.

Section Resolver.

Variable copy_file : string -> string -> Res (option (string * string)).

Lemma get_unrestricted_link_returns (debrid_service : DebridService)
    (original_link file_name : string) (w : World) :
  exists v w',
    _get_unrestricted_link copy_file debrid_service original_link file_name w
    = (Ok v, w').
Proof.
  unfold _get_unrestricted_link, try_except.
  destruct (_get_unrestricted_link_try copy_file debrid_service original_link
              file_name w) as [[v|e] w1]; cbn; eauto.
Qed.

(** C3. The resolver never raises: it always returns a value, and whenever
    the body of its [try] block raises (in the rewrite lookup, in the
    unlock call or in the provider-specific processing of the answer) the
    value returned is [None]. *)
Theorem get_unrestricted_link_catches (debrid_service : DebridService)
    (original_link file_name : string) (w : World) :
  (exists v w',
      _get_unrestricted_link copy_file debrid_service original_link file_name w
      = (Ok v, w'))
  /\ (forall e w',
        _get_unrestricted_link_try copy_file debrid_service original_link file_name w
        = (Raise e, w') ->
        _get_unrestricted_link copy_file debrid_service original_link file_name w
        = (Ok PNone, w')).
Proof.
  split; [apply get_unrestricted_link_returns|].
  intros e w' H. unfold _get_unrestricted_link, try_except. rewrite H.
  reflexivity.
Qed.

(** The three places of the claim, one by one. *)
Lemma rewrite_lookup_error_is_absent (debrid_service : DebridService)
    (original_link file_name : string) (w w' : World) (e : exn) :
  class_name debrid_service = "RealDebrid" ->
  getGood1fichierlink copy_file original_link file_name w = (Raise e, w') ->
  _get_unrestricted_link copy_file debrid_service original_link file_name w
  = (Ok PNone, w').
Proof.
  intros Hc H. unfold _get_unrestricted_link, try_except,
    _get_unrestricted_link_try, bind.
  rewrite Hc. simpl. rewrite H. reflexivity.
Qed.

Lemma unlock_error_is_absent (debrid_service : DebridService)
    (original_link file_name : string) (w : World) (e : exn) :
  class_name debrid_service <> "RealDebrid" ->
  unrestrict_link debrid_service original_link = Raise e ->
  _get_unrestricted_link copy_file debrid_service original_link file_name w
  = (Ok PNone, log (EvUnrestrict (class_name debrid_service) original_link) w).
Proof.
  intros Hc H. apply String.eqb_neq in Hc.
  unfold _get_unrestricted_link, try_except, _get_unrestricted_link_try,
    bind, await.
  rewrite Hc. simpl. rewrite H. reflexivity.
Qed.

Lemma folder_lookup_error_is_absent (debrid_service : DebridService)
    (original_link file_name folder : string) (w w1 : World)
    (link_to_unrestrict : string) (items : list (string * PyVal))
    (name : PyVal) (e : exn) :
  class_name debrid_service = "RealDebrid" ->
  getGood1fichierlink copy_file original_link file_name w
  = (Ok link_to_unrestrict, w1) ->
  unrestrict_link debrid_service link_to_unrestrict = Ok (PDict items) ->
  items <> [] ->
  debridHttp (service_config debrid_service) = Some folder ->
  non_empty folder = true ->
  assoc_get items "filename" = Some name ->
  truthy name = true ->
  find_link_in_folder debrid_service folder name = Raise e ->
  fst (_get_unrestricted_link copy_file debrid_service original_link file_name w)
  = Ok PNone.
Proof.
  intros Hc Hg Hu Hi Hf Hne Hn Ht He.
  unfold _get_unrestricted_link, try_except, _get_unrestricted_link_try,
    bind, await.
  assert (Htr : truthy (PDict items) = true)
    by (destruct items; [congruence|reflexivity]).
  rewrite Hc. cbn -[truthy assoc_get]. rewrite Hg, Hu.
  cbn -[truthy assoc_get]. rewrite Htr, Hf, Hne.
  cbn -[truthy assoc_get]. rewrite Hn. cbn -[truthy assoc_get].
  rewrite Ht, He. reflexivity.
Qed.

(** C4 (amended). Through a backend that is neither RealDebrid nor
    AllDebrid the resolver calls the unlock endpoint with the original
    link, once, and returns the original link unchanged when the answer is
    not empty; when the call raises or answers nothing it returns [None]. *)
Theorem get_unrestricted_link_other_backend (debrid_service : DebridService)
    (original_link file_name : string) (w : World) :
  class_name debrid_service <> "RealDebrid" ->
  class_name debrid_service <> "AllDebrid" ->
  _get_unrestricted_link copy_file debrid_service original_link file_name w
  = (Ok match unrestrict_link debrid_service original_link with
        | Ok unrestricted_data =>
            if truthy unrestricted_data then PStr original_link else PNone
        | Raise _ => PNone
        end,
     log (EvUnrestrict (class_name debrid_service) original_link) w).
Proof.
  intros Hr Ha. apply String.eqb_neq in Hr, Ha.
  unfold _get_unrestricted_link, try_except, _get_unrestricted_link_try,
    bind, await.
  rewrite Hr. cbn -[String.eqb truthy].
  destruct (unrestrict_link debrid_service original_link) as [v|e];
    cbn -[String.eqb truthy]; [|reflexivity].
  destruct (truthy v); cbn -[String.eqb]; [|reflexivity].
  rewrite Ha. reflexivity.
Qed.

End Resolver.

Lemma keeps_cache_ret {A} (a : A) : keeps_cache (ret a).
Proof. intros w. split; reflexivity. Qed.

Lemma keeps_cache_raise {A} (e : exn) : keeps_cache (@raise A e).
Proof. intros w. split; reflexivity. Qed.

Lemma keeps_cache_bind {A B} (m : M A) (k : A -> M B) :
  keeps_cache m -> (forall a, keeps_cache (k a)) -> keeps_cache (bind m k).
Proof.
  intros Hm Hk w. unfold bind. specialize (Hm w).
  destruct (m w) as [[a|e] w1]; simpl in *.
  - destruct (Hk a w1) as [H1 H2]. destruct Hm as [H3 H4]. split; congruence.
  - exact Hm.
Qed.

Lemma keeps_cache_try_except {A} (body : M A) (handler : exn -> M A) :
  keeps_cache body -> (forall e, keeps_cache (handler e)) ->
  keeps_cache (try_except body handler).
Proof.
  intros Hm Hk w. unfold try_except. specialize (Hm w).
  destruct (body w) as [[a|e] w1]; simpl in *.
  - exact Hm.
  - destruct (Hk e w1) as [H1 H2]. destruct Hm as [H3 H4]. split; congruence.
Qed.

Lemma keeps_cache_await {A} (ev : Event) (answer : Res A) :
  is_hset ev = false -> keeps_cache (await ev answer).
Proof.
  intros H w. unfold await, cache_writes. simpl. rewrite H. split; reflexivity.
Qed.

Lemma keeps_cache_select_flag (table : Table) (link : string) :
  keeps_cache (select_flag table link).
Proof. intros w. split; reflexivity. Qed.

Lemma keeps_cache_update_table (table : Table) (url new_link : string) :
  keeps_cache (update_table table url new_link).
Proof. intros w. destruct table; split; reflexivity. Qed.

Lemma keeps_cache_py_get (d : PyVal) (key : string) (default : PyVal) :
  keeps_cache (py_get d key default).
Proof.
  destruct d; simpl; auto using @keeps_cache_ret, @keeps_cache_raise.
Qed.

Lemma keeps_cache_while_selecting (table : Table) (link url : string)
    (update : M unit) :
  keeps_cache update -> keeps_cache (while_selecting table link url update).
Proof.
  intros H w. unfold while_selecting.
  destruct (commit_blocked table link url w); [split; reflexivity|apply H].
Qed.

Create HintDb cache.
#[local] Hint Resolve keeps_cache_ret keeps_cache_raise keeps_cache_select_flag
  keeps_cache_update_table keeps_cache_py_get : cache.

Section Frame.

Variable copy_file : string -> string -> Res (option (string * string)).

Lemma keeps_cache_getGood1fichierlink (link file_name : string) :
  keeps_cache (getGood1fichierlink copy_file link file_name).
Proof.
  unfold getGood1fichierlink.
  destruct (negb (is_1fichier link)); [auto with cache|].
  generalize [enlaces_pelis; enlaces_series]. intros tables.
  induction tables as [|table rest IH]; simpl; [auto with cache|].
  apply keeps_cache_bind; [auto with cache|].
  intros [[flag em]|]; [|exact IH].
  destruct ((flag =? 1)%Z && non_empty em); [auto with cache|].
  apply keeps_cache_bind; [apply keeps_cache_await; reflexivity|].
  intros [[from_url to_url]|]; [|auto with cache].
  apply keeps_cache_bind; [|auto with cache].
  apply keeps_cache_while_selecting.
  destruct table; apply keeps_cache_update_table.
Qed.

Lemma keeps_cache_get_unrestricted_link (debrid_service : DebridService)
    (original_link file_name : string) :
  keeps_cache (_get_unrestricted_link copy_file debrid_service original_link file_name).
Proof.
  unfold _get_unrestricted_link, _get_unrestricted_link_try.
  apply keeps_cache_try_except; [|auto with cache].
  apply keeps_cache_bind.
  { destruct (String.eqb _ _);
      [apply keeps_cache_getGood1fichierlink|auto with cache]. }
  intros link_to_unrestrict.
  apply keeps_cache_bind; [apply keeps_cache_await; reflexivity|].
  intros unrestricted_data.
  destruct (negb (truthy unrestricted_data)); [auto with cache|].
  destruct (String.eqb (class_name debrid_service) "RealDebrid").
  - apply keeps_cache_bind.
    + destruct (debridHttp _) as [folder|]; [|auto with cache].
      destruct (non_empty folder); [|auto with cache].
      apply keeps_cache_bind; [auto with cache|].
      intros name. destruct (truthy name); [|auto with cache].
      apply keeps_cache_await; reflexivity.
    + intros folder_link. destruct (truthy folder_link); auto with cache.
  - destruct (String.eqb (class_name debrid_service) "AllDebrid");
      [|auto with cache].
    apply keeps_cache_bind; auto with cache.
Qed.

End Frame.

Section Orchestrator.

Variable copy_file : string -> string -> Res (option (string * string)).
Variable encodeb64 : string -> string.

(** One turn of the second loop, by the outcome of the resolution. *)
Lemma cache_link_turn (config : Config) (debrid_service : DebridService)
    (link : string) (data : Data) (w : World) :
  exists final_link w1,
    _get_unrestricted_link copy_file debrid_service link (file_name_of data) w
    = (Ok final_link, w1)
    /\ cache_link copy_file encodeb64 config debrid_service link data w
       = (Ok tt,
          if truthy final_link
          then log (EvHSet (encodeb64 link) (entry_of config link data final_link))
                 (set_final_links
                    (<[encodeb64 link := entry_of config link data final_link]>
                       (final_links w1)) w1)
          else w1).
Proof.
  destruct (get_unrestricted_link_returns copy_file debrid_service link
              (file_name_of data) w) as (v & w1 & E).
  exists v, w1. split; [exact E|].
  unfold cache_link, bind. fold (file_name_of data). rewrite E.
  destruct (truthy v); reflexivity.
Qed.

Lemma cache_links_app (pre post : list (string * Data)) (config : Config)
    (debrid_service : DebridService) (w : World) :
  fst (cache_links copy_file encodeb64 pre config debrid_service w) = Ok tt
  /\ cache_links copy_file encodeb64 (pre ++ post) config debrid_service w
     = cache_links copy_file encodeb64 post config debrid_service
         (snd (cache_links copy_file encodeb64 pre config debrid_service w)).
Proof.
  revert w. induction pre as [|[link data] pre IH]; intros w; simpl.
  - split; reflexivity.
  - unfold bind.
    destruct (cache_link_turn config debrid_service link data w)
      as (v & w1 & _ & E).
    rewrite E. apply IH.
Qed.

(** C6. Whatever comes before a candidate in the ranked list, its turn in
    the orchestrator is as follows. The resolver is called with the
    original link and returns a value. If the value is truthy, exactly one
    cache write follows, of the entry with fields [config], [link] (the
    original link), [final_link] and [filesize], under the key
    [encodeb64 link]. If it is absent (or falsy), no cache write is made
    and the cache is as before the candidate. In both cases the loop goes
    on with the candidates that follow. *)
Theorem process_and_cache_links_turn (results_data : list (string * Data))
    (config : Config) (debrid_service : DebridService)
    (pre post : list (string * Data)) (link : string) (data : Data) (w : World) :
  ranked_results results_data config = pre ++ (link, data) :: post ->
  let w0 := snd (cache_links copy_file encodeb64 pre config debrid_service w) in
  let w2 := snd (cache_link copy_file encodeb64 config debrid_service link data w0) in
  exists final_link w1,
    _get_unrestricted_link copy_file debrid_service link (file_name_of data) w0
    = (Ok final_link, w1)
    /\ (if truthy final_link
        then final_links w2
             = <[encodeb64 link := entry_of config link data final_link]>
                 (final_links w0)
             /\ trace w2
                = EvHSet (encodeb64 link) (entry_of config link data final_link)
                  :: trace w1
             /\ cache_writes (trace w2) = S (cache_writes (trace w0))
        else w2 = w1
             /\ final_links w2 = final_links w0
             /\ cache_writes (trace w2) = cache_writes (trace w0))
    /\ _process_and_cache_links copy_file encodeb64 results_data config debrid_service w
       = cache_links copy_file encodeb64 post config debrid_service w2.
Proof.
  intros Hsplit w0 w2.
  destruct (cache_link_turn config debrid_service link data w0)
    as (v & w1 & Hres & Hturn).
  exists v, w1. split; [exact Hres|].
  destruct (keeps_cache_get_unrestricted_link copy_file debrid_service link
              (file_name_of data) w0) as [Hfl Hcw].
  rewrite Hres in Hfl, Hcw. simpl in Hfl, Hcw.
  split.
  - subst w2. rewrite Hturn. simpl.
    destruct (truthy v); simpl.
    + rewrite Hfl. repeat split. unfold cache_writes in *. simpl.
      rewrite Hcw. reflexivity.
    + auto.
  - unfold _process_and_cache_links. rewrite Hsplit.
    destruct (cache_links_app pre ((link, data) :: post) config debrid_service w)
      as [_ Happ].
    rewrite Happ. fold w0. simpl. unfold bind.
    subst w2. rewrite Hturn. reflexivity.
Qed.

End Orchestrator.

Section Playback.

Variable copy_file : string -> string -> Res (option (string * string)).
Variable decodeb64 : string -> string.
Variable parse_config : string -> Config.
Variable get_debrid_service : Config -> DebridService.

#[local] Abbreviation handle_playback :=
  (_handle_playback copy_file decodeb64 parse_config get_debrid_service).
#[local] Abbreviation resolve :=
  (resolve_now copy_file decodeb64 get_debrid_service).

Lemma cache_blind_ret {A} (a : A) : cache_blind (ret a).
Proof. intros cache w. reflexivity. Qed.

Lemma cache_blind_raise {A} (e : exn) : cache_blind (@raise A e).
Proof. intros cache w. reflexivity. Qed.

Lemma cache_blind_bind {A B} (m : M A) (k : A -> M B) :
  cache_blind m -> (forall a, cache_blind (k a)) -> cache_blind (bind m k).
Proof.
  intros Hm Hk cache w. unfold bind. rewrite (Hm cache w).
  destruct (m w) as [[a|e] w1]; simpl; [apply Hk|reflexivity].
Qed.

Lemma cache_blind_try_except {A} (body : M A) (handler : exn -> M A) :
  cache_blind body -> (forall e, cache_blind (handler e)) ->
  cache_blind (try_except body handler).
Proof.
  intros Hm Hk cache w. unfold try_except. rewrite (Hm cache w).
  destruct (body w) as [[a|e] w1]; simpl; [reflexivity|apply Hk].
Qed.

Lemma cache_blind_await {A} (ev : Event) (answer : Res A) :
  cache_blind (await ev answer).
Proof. intros cache w. reflexivity. Qed.

Lemma cache_blind_py_get (d : PyVal) (key : string) (default : PyVal) :
  cache_blind (py_get d key default).
Proof. destruct d; intros cache w; reflexivity. Qed.

Lemma cache_blind_getGood1fichierlink (link file_name : string) :
  cache_blind (getGood1fichierlink copy_file link file_name).
Proof.
  unfold getGood1fichierlink.
  destruct (negb (is_1fichier link)); [apply cache_blind_ret|].
  generalize [enlaces_pelis; enlaces_series]. intros tables.
  induction tables as [|table rest IH]; simpl; [apply cache_blind_ret|].
  apply cache_blind_bind; [intros cache w; destruct table; reflexivity|].
  intros [[flag em]|]; [|exact IH].
  destruct ((flag =? 1)%Z && non_empty em); [apply cache_blind_ret|].
  apply cache_blind_bind; [apply cache_blind_await|].
  intros [[from_url to_url]|]; [|apply cache_blind_ret].
  apply cache_blind_bind; [|intros; apply cache_blind_ret].
  intros cache w. unfold while_selecting.
  replace (commit_blocked table link from_url (set_final_links cache w))
    with (commit_blocked table link from_url w) by (destruct table; reflexivity).
  destruct (commit_blocked table link from_url w); [reflexivity|].
  destruct table; reflexivity.
Qed.

Lemma cache_blind_get_unrestricted_link (debrid_service : DebridService)
    (original_link file_name : string) :
  cache_blind (_get_unrestricted_link copy_file debrid_service original_link file_name).
Proof.
  unfold _get_unrestricted_link, _get_unrestricted_link_try.
  apply cache_blind_try_except; [|intros; apply cache_blind_ret].
  apply cache_blind_bind.
  { destruct (String.eqb _ _);
      [apply cache_blind_getGood1fichierlink|apply cache_blind_ret]. }
  intros link_to_unrestrict.
  apply cache_blind_bind; [apply cache_blind_await|].
  intros unrestricted_data.
  destruct (negb (truthy unrestricted_data)); [apply cache_blind_ret|].
  destruct (String.eqb (class_name debrid_service) "RealDebrid").
  - apply cache_blind_bind.
    + destruct (debridHttp _) as [folder|]; [|apply cache_blind_ret].
      destruct (non_empty folder); [|apply cache_blind_ret].
      apply cache_blind_bind; [apply cache_blind_py_get|].
      intros name. destruct (truthy name);
        [apply cache_blind_await|apply cache_blind_ret].
    + intros folder_link. destruct (truthy folder_link);
        [apply cache_blind_ret|apply cache_blind_py_get].
  - destruct (String.eqb (class_name debrid_service) "AllDebrid");
      [|apply cache_blind_ret].
    apply cache_blind_bind; [apply cache_blind_py_get|].
    intros data. apply cache_blind_py_get.
Qed.

(** What the playback resolver does once the cache gave nothing. *)
Lemma resolve_now_outcome (config : Config) (query file_name : string) (w : World) :
  exists final_link w1,
    _get_unrestricted_link copy_file (get_debrid_service config)
      (decodeb64 query) (decodeb64 file_name) w
    = (Ok final_link, w1)
    /\ resolve config query file_name w
       = (if truthy final_link then Ok final_link
          else Raise (HTTPException HTTP_500_INTERNAL_SERVER_ERROR
                                    "No se pudo procesar el enlace."),
          w1).
Proof.
  destruct (get_unrestricted_link_returns copy_file (get_debrid_service config)
              (decodeb64 query) (decodeb64 file_name) w) as (v & w1 & E).
  exists v, w1. split; [exact E|].
  unfold resolve_now, bind. rewrite E. destruct (truthy v); reflexivity.
Qed.

(** C1. For a request with a key, and the entry stored under that key.
    When the entry carries a configuration different from the one decoded
    from the request, the playback resolver treats the lookup as a miss:
    it resolves the decoded link through the backend of the request's
    configuration and answers with the outcome of that resolution (the
    final link when truthy, HTTP 500 otherwise), exactly as it does on the
    same world with the entry removed; the stored final link plays no part
    and the mismatch raises nothing of its own. When the configurations
    are equal it returns the stored final link and leaves the world
    untouched. *)
Theorem handle_playback_config_check (config_str query file_name : string)
    (w : World) (cached_data : Entry) :
  non_empty query = true ->
  final_links w !! query = Some cached_data ->
  (entry_config cached_data <> parse_config config_str ->
   (exists final_link w1,
       _get_unrestricted_link copy_file
         (get_debrid_service (parse_config config_str))
         (decodeb64 query) (decodeb64 file_name) w
       = (Ok final_link, w1)
       /\ handle_playback config_str query file_name w
          = (if truthy final_link then Ok final_link
             else Raise (HTTPException HTTP_500_INTERNAL_SERVER_ERROR
                                       "No se pudo procesar el enlace."),
             w1))
   /\ handle_playback config_str query file_name
        (set_final_links (delete query (final_links w)) w)
      = (fst (handle_playback config_str query file_name w),
         set_final_links (delete query (final_links w))
           (snd (handle_playback config_str query file_name w))))
  /\ (entry_config cached_data = parse_config config_str ->
      handle_playback config_str query file_name w
      = (Ok (entry_final_link cached_data), w)).
Proof.
  intros Hq Hget.
  assert (Hmiss : forall w0, final_links w0 !! query = None ->
             handle_playback config_str query file_name w0
             = resolve (parse_config config_str) query file_name w0).
  { intros w0 Hnone.
    unfold _handle_playback, cached_final_link, hget_final_links, bind.
    rewrite Hq. cbv beta iota delta [negb]. rewrite Hnone. reflexivity. }
  split; intros Hc.
  - assert (Hfall : handle_playback config_str query file_name w
                    = resolve (parse_config config_str) query file_name w).
    { unfold _handle_playback, cached_final_link, hget_final_links, bind.
      rewrite Hq. cbv beta iota delta [negb]. rewrite Hget.
      rewrite bool_decide_eq_false_2 by exact Hc. reflexivity. }
    destruct (resolve_now_outcome (parse_config config_str) query file_name w)
      as (v & w1 & E & Hres).
    split.
    + exists v, w1. split; [exact E|]. rewrite Hfall. exact Hres.
    + rewrite Hmiss by (simpl; apply lookup_delete_eq).
      rewrite Hfall, Hres. simpl.
      unfold resolve_now, bind.
      rewrite (cache_blind_get_unrestricted_link _ _ _
                 (delete query (final_links w)) w).
      rewrite E. simpl. destruct (truthy v); reflexivity.
  - unfold _handle_playback, cached_final_link, hget_final_links, bind.
    rewrite Hq. cbv beta iota delta [negb]. rewrite Hget.
    rewrite bool_decide_eq_true_2 by exact Hc. reflexivity.
Qed.

(** C8. For a request with a key that is not a configuration-matching
    cache hit: the playback resolver resolves the decoded link, with the
    decoded file name, through the backend built for the request's
    configuration; a truthy final link is returned, an absent one is
    signalled by an HTTP 500 exception; in both cases the cache is left as
    it was and no cache write is made. *)
Theorem handle_playback_miss (config_str query file_name : string) (w : World) :
  non_empty query = true ->
  (forall cached_data,
      final_links w !! query = Some cached_data ->
      entry_config cached_data <> parse_config config_str) ->
  exists final_link w1,
    _get_unrestricted_link copy_file
      (get_debrid_service (parse_config config_str))
      (decodeb64 query) (decodeb64 file_name) w
    = (Ok final_link, w1)
    /\ handle_playback config_str query file_name w
       = (if truthy final_link then Ok final_link
          else Raise (HTTPException HTTP_500_INTERNAL_SERVER_ERROR
                                    "No se pudo procesar el enlace."),
          w1)
    /\ final_links w1 = final_links w
    /\ cache_writes (trace w1) = cache_writes (trace w).
Proof.
  intros Hq Hmiss.
  destruct (get_unrestricted_link_returns copy_file
              (get_debrid_service (parse_config config_str))
              (decodeb64 query) (decodeb64 file_name) w) as (v & w1 & E).
  exists v, w1. split; [exact E|].
  destruct (keeps_cache_get_unrestricted_link copy_file
              (get_debrid_service (parse_config config_str))
              (decodeb64 query) (decodeb64 file_name) w) as [Hfl Hcw].
  rewrite E in Hfl, Hcw. simpl in Hfl, Hcw.
  split; [|auto].
  unfold _handle_playback, cached_final_link, hget_final_links, bind.
  rewrite Hq. cbv beta iota delta [negb].
  assert (Hfall : resolve_now copy_file decodeb64 get_debrid_service
                    (parse_config config_str) query file_name w
                  = (if truthy v then Ok v
                     else Raise (HTTPException HTTP_500_INTERNAL_SERVER_ERROR
                                               "No se pudo procesar el enlace."),
                     w1)).
  { unfold resolve_now, bind. rewrite E. destruct (truthy v); reflexivity. }
  destruct (final_links w !! query) as [cached_data|] eqn:Hget.
  - rewrite bool_decide_eq_false_2 by (apply Hmiss; reflexivity). exact Hfall.
  - exact Hfall.
Qed.

End Playback.

(** ** The filter and rank step *)

Lemma float_gt_int_false (x : Q) (c : Z) :
  float_gt_int x c = false <-> (x <= inject_Z c)%Q.
Proof.
  unfold float_gt_int. rewrite negb_false_iff. apply Qle_bool_iff.
Qed.

Lemma float_gt_int_true (x : Q) (c : Z) :
  float_gt_int x c = true <-> (inject_Z c < x)%Q.
Proof.
  unfold float_gt_int. rewrite negb_true_iff. split.
  - intros H. apply Qnot_le_lt. intros Hle.
    apply Qle_bool_iff in Hle. congruence.
  - intros H. destruct (Qle_bool x (inject_Z c)) eqn:E; [|reflexivity].
    apply Qle_bool_iff in E. exfalso. exact (Qlt_not_le _ _ H E).
Qed.

Lemma existsb_eqb_In (q : string) (l : list string) :
  existsb (String.eqb q) l = true <-> In q l.
Proof.
  rewrite existsb_exists. split.
  - intros (x & Hin & Heq). apply String.eqb_eq in Heq. subst. exact Hin.
  - intros Hin. exists q. split; [exact Hin|apply String.eqb_refl].
Qed.

Lemma passes_survives (config : Config) (c : string * Data) :
  passes config c = true <-> survives config c.
Proof.
  unfold passes, survives, within_ceiling, not_excluded.
  rewrite andb_true_iff, !negb_true_iff. split.
  - intros [Hm Hx]. split.
    + intros max_size E. rewrite E in Hm. apply float_gt_int_false. exact Hm.
    + intros exclusion E Hin. rewrite E in Hx.
      apply existsb_eqb_In in Hin. congruence.
  - intros [Hm Hx]. split.
    + destruct (maxSize config) as [max_size|]; [|reflexivity].
      apply float_gt_int_false. apply Hm. reflexivity.
    + destruct (selectedQualityExclusion config) as [exclusion|]; [|reflexivity].
      destruct (existsb _ exclusion) eqn:E; [|reflexivity].
      apply existsb_eqb_In in E. exfalso. exact (Hx exclusion eq_refl E).
Qed.

Lemma valid_results_of_filter (results_data : list (string * Data)) (config : Config) :
  valid_results_of results_data config = filter (survives config) results_data.
Proof.
  induction results_data as [|[link data] rest IH]; [reflexivity|].
  rewrite filter_cons. simpl valid_results_of.
  destruct (decide (survives config (link, data))) as [Hs|Hs].
  - apply passes_survives in Hs. unfold passes in Hs. simpl in Hs.
    apply andb_true_iff in Hs as [H1 H2].
    apply negb_true_iff in H1, H2. rewrite H1, H2, IH. reflexivity.
  - assert (Hp : passes config (link, data) = false).
    { destruct (passes config (link, data)) eqn:E; [|reflexivity].
      apply passes_survives in E. contradiction. }
    unfold passes in Hp. simpl in Hp. apply andb_false_iff in Hp.
    destruct (match maxSize config with
              | Some max_size => float_gt_int (true_div_gib (filesize data)) max_size
              | None => false
              end); [exact IH|].
    destruct Hp as [Hp|Hp]; [discriminate|].
    apply negb_false_iff in Hp. rewrite Hp. exact IH.
Qed.

Lemma insert_desc_perm (x : string * Data) (l : list (string * Data)) :
  Permutation (insert_desc x l) (x :: l).
Proof.
  induction l as [|y l IH]; simpl; [reflexivity|].
  destruct (filesize (snd x) <? filesize (snd y))%Z; [|reflexivity].
  rewrite IH. apply perm_swap.
Qed.

Lemma sort_by_filesize_desc_perm (l : list (string * Data)) :
  Permutation (sort_by_filesize_desc l) l.
Proof.
  induction l as [|x l IH]; simpl; [reflexivity|].
  rewrite insert_desc_perm. constructor. exact IH.
Qed.

Lemma insert_desc_sorted (x : string * Data) (l : list (string * Data)) :
  StronglySorted by_size_desc l -> StronglySorted by_size_desc (insert_desc x l).
Proof.
  induction l as [|y l IH]; simpl; intros Hs.
  - constructor; constructor.
  - destruct (filesize (snd x) <? filesize (snd y))%Z eqn:E.
    + inversion Hs as [|? ? Hl Hy]; subst. constructor; [apply IH; exact Hl|].
      apply List.Forall_forall. intros z Hz.
      apply (Permutation_in _ (insert_desc_perm x l)) in Hz.
      destruct Hz as [<-|Hz].
      * unfold by_size_desc. apply Z.ltb_lt in E. lia.
      * rewrite List.Forall_forall in Hy. apply Hy. exact Hz.
    + apply Z.ltb_ge in E. constructor; [exact Hs|].
      inversion Hs as [|? ? Hl Hy]; subst. constructor; [exact E|].
      apply List.Forall_forall. intros z Hz. rewrite List.Forall_forall in Hy.
      specialize (Hy z Hz). unfold by_size_desc in *. lia.
Qed.

Lemma sort_by_filesize_desc_sorted (l : list (string * Data)) :
  StronglySorted by_size_desc (sort_by_filesize_desc l).
Proof.
  induction l as [|x l IH]; simpl; [constructor|].
  apply insert_desc_sorted. exact IH.
Qed.

(** Insertion only moves an element past strictly larger ones, so the
    candidates of any one size keep their order. *)
Lemma insert_desc_stable (s : Z) (x : string * Data) (l : list (string * Data)) :
  filter (has_size s) (insert_desc x l) = filter (has_size s) (x :: l).
Proof.
  induction l as [|y l IH]; simpl; [reflexivity|].
  destruct (filesize (snd x) <? filesize (snd y))%Z eqn:E; [|reflexivity].
  apply Z.ltb_lt in E.
  rewrite (filter_cons _ y), IH, !filter_cons.
  unfold has_size.
  destruct (decide (filesize (snd y) = s)), (decide (filesize (snd x) = s));
    try reflexivity.
  lia.
Qed.

Lemma sort_by_filesize_desc_stable (s : Z) (l : list (string * Data)) :
  filter (has_size s) (sort_by_filesize_desc l) = filter (has_size s) l.
Proof.
  induction l as [|x l IH]; simpl; [reflexivity|].
  rewrite insert_desc_stable, !filter_cons, IH. reflexivity.
Qed.

Lemma ranked_results_In (results_data : list (string * Data)) (config : Config)
    (c : string * Data) :
  In c (ranked_results results_data config)
  <-> In c results_data /\ survives config c.
Proof.
  unfold ranked_results. rewrite valid_results_of_filter. split.
  - intros H. apply (Permutation_in _ (sort_by_filesize_desc_perm _)) in H.
    apply list_elem_of_In, list_elem_of_filter in H as [Hs Hin].
    split; [apply list_elem_of_In; exact Hin|exact Hs].
  - intros [Hin Hs].
    apply (Permutation_in _ (Permutation_sym (sort_by_filesize_desc_perm _))).
    apply list_elem_of_In, list_elem_of_filter.
    split; [exact Hs|apply list_elem_of_In; exact Hin].
Qed.

(** The filter and rank step on the values the code compares: the
    candidates that pass both tests of the first loop form a subsequence
    [kept] of the input, and the output is [kept] rearranged, sorted by
    filesize descending, where the candidates of each size come in the
    order they have in the input. *)
Lemma ranked_results_stable_sort (results_data : list (string * Data))
    (config : Config) :
  let kept := filter (survives config) results_data in
  let ranked := ranked_results results_data config in
  kept `sublist_of` results_data
  /\ (forall c, In c ranked <-> In c results_data /\ survives config c)
  /\ Permutation ranked kept
  /\ StronglySorted by_size_desc ranked
  /\ forall s, filter (has_size s) ranked = filter (has_size s) kept.
Proof.
  intros kept ranked. subst kept ranked.
  split; [apply sublist_filter|].
  split; [intros c; apply ranked_results_In|].
  unfold ranked_results. rewrite valid_results_of_filter.
  split; [apply sort_by_filesize_desc_perm|].
  split; [apply sort_by_filesize_desc_sorted|].
  intros s. apply sort_by_filesize_desc_stable.
Qed.

(** ** The size compared with the ceiling *)

Lemma binary64_of_int_exact (n : Z) :
  (Z.abs n <= 2 ^ 53)%Z -> binary64_of_int n = n.
Proof.
  intros H. unfold binary64_of_int, round53.
  destruct (Z.abs n <? 2 ^ 53)%Z eqn:E.
  - lia.
  - apply Z.ltb_ge in E.
    assert (Hn : Z.abs n = (2 ^ 53)%Z) by lia.
    rewrite Hn. vm_compute Z.log2. cbv zeta.
    change (if (Z.shiftl 1 (53 - 52 - 1) <? Z.land (2 ^ 53) (Z.ones (53 - 52)))%Z
               || (Z.land (2 ^ 53) (Z.ones (53 - 52)) =? Z.shiftl 1 (53 - 52 - 1))%Z
                  && Z.odd (Z.shiftr (2 ^ 53) (53 - 52))
            then Z.shiftl (Z.shiftr (2 ^ 53) (53 - 52) + 1) (53 - 52)
            else Z.shiftl (Z.shiftr (2 ^ 53) (53 - 52)) (53 - 52))
      with (2 ^ 53)%Z.
    lia.
Qed.

Lemma true_div_gib_exact (data : Data) :
  (Z.abs (filesize data) <= 2 ^ 53)%Z -> true_div_gib (filesize data) = size_gb data.
Proof.
  intros H. unfold true_div_gib, size_gb.
  rewrite binary64_of_int_exact by exact H. reflexivity.
Qed.

Lemma survives_satisfies_filters (config : Config) (c : string * Data) :
  exact_size c -> survives config c <-> satisfies_filters config c.
Proof.
  intros H. unfold survives, satisfies_filters, within_ceiling, not_excluded.
  rewrite (true_div_gib_exact (snd c) H). reflexivity.
Qed.

Lemma filter_agree {A} (P Q : A -> Prop) `{!forall x, Decision (P x)}
    `{!forall x, Decision (Q x)} (l : list A) :
  Forall (fun x => P x <-> Q x) l -> filter P l = filter Q l.
Proof.
  induction 1 as [|x l Hx _ IH]; [reflexivity|].
  rewrite !filter_cons, IH.
  destruct (decide (P x)) as [HP|HP], (decide (Q x)) as [HQ|HQ];
    try reflexivity; exfalso; tauto.
Qed.

(** C2 (amended). For candidates whose sizes are at most 2^53 bytes, the
    integers binary64 holds exactly: the candidates that satisfy both
    active filters, with the size in GiB taken as the exact quotient of the
    size by 2^30, form a subsequence [kept] of the input; the output of the
    filter and rank step holds exactly those candidates, and it is [kept]
    rearranged (a permutation of it, not in general a subsequence of the
    input), sorted by filesize descending, where the candidates of each
    size come in the order they have in the input. *)
Theorem ranked_results_filter_rank (results_data : list (string * Data))
    (config : Config) :
  Forall exact_size results_data ->
  let kept := filter (satisfies_filters config) results_data in
  let ranked := ranked_results results_data config in
  kept `sublist_of` results_data
  /\ (forall c, In c ranked <-> In c results_data /\ satisfies_filters config c)
  /\ Permutation ranked kept
  /\ StronglySorted by_size_desc ranked
  /\ forall s, filter (has_size s) ranked = filter (has_size s) kept.
Proof.
  intros Hexact kept ranked. subst kept ranked.
  assert (Hkept : filter (survives config) results_data
                  = filter (satisfies_filters config) results_data).
  { apply filter_agree. eapply Forall_impl; [exact Hexact|].
    intros c Hc. apply survives_satisfies_filters. exact Hc. }
  destruct (ranked_results_stable_sort results_data config)
    as (Hsub & Hin & Hperm & Hsorted & Hstable).
  cbv zeta in Hsub, Hin, Hperm, Hsorted, Hstable.
  rewrite Hkept in Hsub, Hperm, Hstable.
  split; [exact Hsub|]. split.
  - intros c. rewrite Hin. split.
    + intros [Hc Hs]. split; [exact Hc|].
      apply survives_satisfies_filters; [|exact Hs].
      rewrite List.Forall_forall in Hexact. apply Hexact. exact Hc.
    + intros [Hc Hs]. split; [exact Hc|].
      apply survives_satisfies_filters; [|exact Hs].
      rewrite List.Forall_forall in Hexact. apply Hexact. exact Hc.
  - split; [exact Hperm|]. split; [exact Hsorted|exact Hstable].
Qed.

(** C9 (amended). For a candidate whose size is at most 2^53 bytes (the
    integers binary64 holds exactly) the value compared with the ceiling is
    the quotient of the size by 2^30 as a fraction, not rounded; the
    ceiling test drops the candidate exactly when that fraction is strictly
    greater than the ceiling. *)
Theorem ceiling_test_exact (results_data : list (string * Data)) (config : Config)
    (link : string) (data : Data) (max_size : Z) :
  (Z.abs (filesize data) <= 2 ^ 53)%Z ->
  maxSize config = Some max_size ->
  In (link, data) results_data ->
  true_div_gib (filesize data) = filesize data # 1073741824
  /\ ((inject_Z max_size < filesize data # 1073741824)%Q ->
      ~ In (link, data) (ranked_results results_data config))
  /\ (~ (inject_Z max_size < filesize data # 1073741824)%Q ->
      not_excluded config data ->
      In (link, data) (ranked_results results_data config)).
Proof.
  intros Hs Hm Hin.
  assert (Hgb : true_div_gib (filesize data) = filesize data # 1073741824).
  { unfold true_div_gib. rewrite binary64_of_int_exact by exact Hs. reflexivity. }
  pose proof (ranked_results_In results_data config (link, data)) as Hmem.
  split; [exact Hgb|]. split.
  - intros Hgt Hr. apply Hmem in Hr as [_ [Hc _]].
    specialize (Hc max_size Hm). simpl in Hc. rewrite Hgb in Hc.
    exact (Qlt_not_le _ _ Hgt Hc).
  - intros Hle Hx. apply Hmem. split; [exact Hin|]. split; [|exact Hx].
    intros c Hc. simpl. rewrite Hgb.
    assert (c = max_size) by congruence. subst c.
    apply Qnot_lt_le. exact Hle.
Qed.

Section Listing.

Variable detect_quality : string -> string.
Variable get_file_info : nat -> string -> Res InfoTuple.

Lemma info_map_of_lookup (file_infos : list (Res InfoTuple))
    (m0 : gmap string InfoTuple) (key : string) (t : InfoTuple) :
  foldl (fun m info =>
           match info with
           | Ok t => <[t.2 := t]> m
           | Raise _ => m
           end) m0 file_infos !! key = Some t ->
  m0 !! key = Some t
  \/ exists i, file_infos !! i = Some (Ok t) /\ t.2 = key.
Proof.
  revert m0. induction file_infos as [|info rest IH]; intros m0 H; simpl in H.
  - left. exact H.
  - apply IH in H as [H|(i & Hi & Hk)].
    + destruct info as [t0|e]; [|left; exact H].
      destruct (decide (t0.2 = key)) as [Heq|Hne].
      * rewrite <- Heq, lookup_insert_eq in H. injection H as ->.
        right. exists 0%nat. split; [reflexivity|exact Heq].
      * rewrite lookup_insert_ne in H by exact Hne. left. exact H.
    + right. exists (S i). split; [exact Hi|exact Hk].
Qed.

(** C7. Every link of the search result gets a candidate, in order, so
    that the candidate list has as many elements as the search result,
    whatever the outcome of the info requests; a link all of whose info
    requests failed (raised, or answered no info) carries filesize 0, an
    empty quality label and no file name. The info service is taken to
    key its answer by the link it was asked about. *)
Theorem results_data_partial_failure (search_results : list string) :
  (forall i link t,
      tasks_of search_results !! i = Some link ->
      get_file_info i link = Ok t -> t.2 = link) ->
  let results_data := results_data_of detect_quality get_file_info search_results in
  length results_data = length search_results
  /\ map fst results_data = search_results
  /\ forall link,
       (forall i, tasks_of search_results !! i = Some link ->
                  fetch_failed (get_file_info i link)) ->
       forall data, In (link, data) results_data -> data = default_data link.
Proof.
  intros Hkey results_data. subst results_data. unfold results_data_of.
  split; [apply length_map|].
  split.
  { rewrite map_map. simpl. apply map_id. }
  intros link Hfail data Hin.
  apply in_map_iff in Hin. destruct Hin as (l & Heq & _).
  inversion Heq; subst l data.
  unfold data_of, default_data.
  destruct (is_1fichier link); [|reflexivity].
  destruct (info_map_of (file_infos_of get_file_info search_results) !! link)
    as [[[x info_data] k]|] eqn:E; [|reflexivity].
  unfold info_map_of in E. apply info_map_of_lookup in E as [E|(i & Hi & Hk)].
  - rewrite lookup_empty in E. discriminate.
  - unfold file_infos_of in Hi. rewrite list_lookup_imap in Hi.
    destruct (tasks_of search_results !! i) as [l|] eqn:Et; [|discriminate].
    simpl in Hi. inversion Hi as [Hg].
    pose proof (Hkey i l _ Et Hg) as Hl. simpl in Hl, Hk. subst k l.
    specialize (Hfail i Et). rewrite Hg in Hfail. simpl in Hfail.
    subst info_data. reflexivity.
Qed.

End Listing.

(** * Worked instances *)

(** Scenarios A and B of the specification, with an excluded candidate and
    two candidates of equal size. *)
Example ranked_results_ceiling_10 :
  ranked_results
    [(Ex.other_link, Ex.small); ("https://1fichier.com/?cam", Ex.cam);
     (Ex.fichier_link, Ex.movie); ("https://1fichier.com/?twin", Ex.twin)]
    Ex.config_a
  = [(Ex.fichier_link, Ex.movie); ("https://1fichier.com/?twin", Ex.twin);
     (Ex.other_link, Ex.small)].
Proof. vm_compute. reflexivity. Qed.

Example ranked_results_ceiling_4 :
  ranked_results
    [(Ex.other_link, Ex.small); ("https://1fichier.com/?cam", Ex.cam);
     (Ex.fichier_link, Ex.movie)]
    Ex.config_b
  = [("https://1fichier.com/?cam", Ex.cam); (Ex.other_link, Ex.small)].
Proof. vm_compute. reflexivity. Qed.

(** The comparison is on the fraction: one byte above 1 GiB exceeds a
    ceiling of 1, although the integer quotient is 1. *)
Example ceiling_not_floored :
  float_gt_int (true_div_gib (Ex.gib + 1)) 1 = true
  /\ ((Ex.gib + 1) / Ex.gib >? 1)%Z = false.
Proof. vm_compute. split; reflexivity. Qed.

Lemma getGood1fichierlink_other_host_witness :
  getGood1fichierlink Ex.copy_ok Ex.other_link "video.mkv" Ex.world
  = (Ok Ex.other_link, Ex.world).
Proof.
  apply (getGood1fichierlink_other_host Ex.copy_ok Ex.other_link "video.mkv" Ex.world).
  reflexivity.
Defined.

(** C5, as stated, fails when the promote/copy call answers nothing: the
    lookup returns no replacement and no row of the index carries one. *)
Lemma getGood1fichierlink_copy_fails :
  is_1fichier Ex.fichier_link = true
  /\ index_row Ex.world Ex.fichier_link = Some (enlaces_pelis, (0%Z, ""))
  /\ fst (getGood1fichierlink Ex.copy_none Ex.fichier_link "Movie.mkv" Ex.world)
     = Ok Ex.fichier_link
  /\ ~ exists to_url,
         fst (getGood1fichierlink Ex.copy_none Ex.fichier_link "Movie.mkv" Ex.world)
         = Ok to_url
         /\ index_row
              (snd (getGood1fichierlink Ex.copy_none Ex.fichier_link "Movie.mkv" Ex.world))
              Ex.fichier_link
            = Some (enlaces_pelis, (1%Z, to_url)).
Proof.
  split; [reflexivity|]. split; [reflexivity|]. split; [reflexivity|].
  intros (to_url & _ & H). vm_compute in H. discriminate H.
Qed.

Lemma getGood1fichierlink_rewrite_witness :
  fst (getGood1fichierlink Ex.copy_ok Ex.fichier_link "Movie.mkv" Ex.world)
  = Ok Ex.copied_link
  /\ index_row
       (snd (getGood1fichierlink Ex.copy_ok Ex.fichier_link "Movie.mkv" Ex.world))
       Ex.fichier_link
     = Some (enlaces_pelis, (1%Z, Ex.copied_link))
  /\ fst (getGood1fichierlink Ex.copy_none Ex.fichier_link "Movie.mkv"
            (snd (getGood1fichierlink Ex.copy_ok Ex.fichier_link "Movie.mkv" Ex.world)))
     = Ok Ex.copied_link.
Proof.
  pose proof (getGood1fichierlink_rewrite Ex.copy_ok Ex.fichier_link "Movie.mkv"
                Ex.world enlaces_pelis 0%Z "" eq_refl eq_refl) as H.
  cbv zeta in H.
  change ((0 =? 1)%Z && non_empty "") with false in H. cbv iota in H.
  destruct H as (_ & H & _).
  destruct (H Ex.copied_link eq_refl eq_refl eq_refl) as (Hr & _ & Hrow & Hagain).
  split; [exact Hr|]. split; [exact Hrow|].
  exact (proj1 (Hagain Ex.copy_none "Movie.mkv")).
Defined.

Lemma get_unrestricted_link_catches_witness :
  _get_unrestricted_link Ex.copy_ok Ex.all_debrid_down Ex.fichier_link "Movie.mkv"
    Ex.world
  = (Ok PNone, log (EvUnrestrict "AllDebrid" Ex.fichier_link) Ex.world).
Proof.
  apply (proj2 (get_unrestricted_link_catches Ex.copy_ok Ex.all_debrid_down
                  Ex.fichier_link "Movie.mkv" Ex.world)
           (Exception "503 Service Unavailable")).
  reflexivity.
Defined.

(** C4, as stated, fails when the unlock call of the other backend answers
    nothing: the resolver returns [None], not the original link. *)
Lemma get_unrestricted_link_other_backend_absent :
  class_name Ex.premiumize_silent <> "RealDebrid"
  /\ class_name Ex.premiumize_silent <> "AllDebrid"
  /\ fst (_get_unrestricted_link Ex.copy_ok Ex.premiumize_silent Ex.other_link
            "video.mkv" Ex.world)
     = Ok PNone
  /\ fst (_get_unrestricted_link Ex.copy_ok Ex.premiumize_silent Ex.other_link
            "video.mkv" Ex.world)
     <> Ok (PStr Ex.other_link).
Proof.
  split; [discriminate|]. split; [discriminate|]. split; [reflexivity|].
  vm_compute. discriminate.
Qed.

Lemma get_unrestricted_link_other_backend_witness :
  _get_unrestricted_link Ex.copy_ok Ex.premiumize Ex.other_link "video.mkv" Ex.world
  = (Ok (PStr Ex.other_link), log (EvUnrestrict "Premiumize" Ex.other_link) Ex.world).
Proof.
  apply (get_unrestricted_link_other_backend Ex.copy_ok Ex.premiumize Ex.other_link
           "video.mkv" Ex.world); vm_compute; discriminate.
Defined.

Lemma process_and_cache_links_turn_witness :
  final_links
    (snd (_process_and_cache_links Ex.copy_ok Ex.b64
            [(Ex.fichier_link, Ex.movie)] Ex.config_a
            (Ex.real_debrid Ex.config_a) Ex.world))
  = {[ Ex.b64 Ex.fichier_link :=
         entry_of Ex.config_a Ex.fichier_link Ex.movie
           (PStr ("https://rd.example/d/" ++ Ex.copied_link)) ]}.
Proof.
  destruct (process_and_cache_links_turn Ex.copy_ok Ex.b64
              [(Ex.fichier_link, Ex.movie)] Ex.config_a
              (Ex.real_debrid Ex.config_a) [] [] Ex.fichier_link Ex.movie
              Ex.world eq_refl)
    as (final_link & w1 & Hres & Hturn & Hloop).
  rewrite Hloop.
  assert (Hv : final_link = PStr ("https://rd.example/d/" ++ Ex.copied_link)).
  { vm_compute in Hres. injection Hres as <- _. reflexivity. }
  subst final_link.
  assert (Ht : truthy (PStr ("https://rd.example/d/" ++ Ex.copied_link)) = true)
    by reflexivity.
  rewrite Ht in Hturn. destruct Hturn as (Hfl & _ & _).
  exact Hfl.
Defined.

Lemma handle_playback_config_check_witness :
  _handle_playback Ex.copy_ok Ex.unb64 Ex.parse_config Ex.real_debrid
    "A" (Ex.b64 Ex.fichier_link) (Ex.b64 "Movie.1080p.mkv") Ex.world_cached
  = (Ok (PStr "https://rd.example/d/cached"), Ex.world_cached)
  /\ fst (_handle_playback Ex.copy_ok Ex.unb64 Ex.parse_config Ex.real_debrid
            "B" (Ex.b64 Ex.fichier_link) (Ex.b64 "Movie.1080p.mkv") Ex.world_cached)
     = Ok (PStr ("https://rd.example/d/" ++ Ex.copied_link)).
Proof.
  split.
  - apply (proj2 (handle_playback_config_check Ex.copy_ok Ex.unb64 Ex.parse_config
                    Ex.real_debrid "A" (Ex.b64 Ex.fichier_link)
                    (Ex.b64 "Movie.1080p.mkv") Ex.world_cached Ex.entry_a
                    eq_refl eq_refl)).
    reflexivity.
  - assert (Hne : entry_config Ex.entry_a <> Ex.parse_config "B")
      by (vm_compute; discriminate).
    destruct (proj1 (proj1 (handle_playback_config_check Ex.copy_ok Ex.unb64
                              Ex.parse_config Ex.real_debrid "B"
                              (Ex.b64 Ex.fichier_link) (Ex.b64 "Movie.1080p.mkv")
                              Ex.world_cached Ex.entry_a eq_refl eq_refl) Hne))
      as (final_link & w1 & Hres & Hplay).
    rewrite Hplay. simpl fst.
    vm_compute in Hres. injection Hres as <- _. reflexivity.
Defined.

Lemma handle_playback_miss_witness :
  fst (_handle_playback Ex.copy_ok Ex.unb64 Ex.parse_config Ex.real_debrid
         "B" (Ex.b64 Ex.fichier_link) (Ex.b64 "Movie.1080p.mkv") Ex.world_cached)
  = Ok (PStr ("https://rd.example/d/" ++ Ex.copied_link))
  /\ final_links
       (snd (_handle_playback Ex.copy_ok Ex.unb64 Ex.parse_config Ex.real_debrid
               "B" (Ex.b64 Ex.fichier_link) (Ex.b64 "Movie.1080p.mkv")
               Ex.world_cached))
     = final_links Ex.world_cached.
Proof.
  assert (Hmiss : forall cached_data,
             final_links Ex.world_cached !! Ex.b64 Ex.fichier_link = Some cached_data ->
             entry_config cached_data <> Ex.parse_config "B").
  { intros cached_data H. vm_compute in H. injection H as <-.
    vm_compute. discriminate. }
  destruct (handle_playback_miss Ex.copy_ok Ex.unb64 Ex.parse_config Ex.real_debrid
              "B" (Ex.b64 Ex.fichier_link) (Ex.b64 "Movie.1080p.mkv")
              Ex.world_cached eq_refl Hmiss)
    as (final_link & w1 & Hres & Hplay & Hfl & _).
  rewrite Hplay. simpl fst. simpl snd. split; [|exact Hfl].
  vm_compute in Hres. injection Hres as <- _. reflexivity.
Defined.

(** The filter and rank step on four candidates under configuration A (a
    ceiling of 10 GiB, [CAM] excluded): the candidate labelled [CAM] is
    dropped, the two of 5 GiB come first in their input order, the empty
    one last. *)
Lemma ranked_results_filter_rank_witness :
  Forall exact_size Ex2.candidates
  /\ ranked_results Ex2.candidates Ex.config_a
     = [(Ex.fichier_link, Ex.movie); ("https://1fichier.com/?twin", Ex.twin);
        (Ex.other_link, Ex.small)]
  /\ filter (satisfies_filters Ex.config_a) Ex2.candidates
     = [(Ex.other_link, Ex.small); (Ex.fichier_link, Ex.movie);
        ("https://1fichier.com/?twin", Ex.twin)]
  /\ Permutation (ranked_results Ex2.candidates Ex.config_a)
       (filter (satisfies_filters Ex.config_a) Ex2.candidates)
  /\ StronglySorted by_size_desc (ranked_results Ex2.candidates Ex.config_a)
  /\ forall s, filter (has_size s) (ranked_results Ex2.candidates Ex.config_a)
              = filter (has_size s)
                  (filter (satisfies_filters Ex.config_a) Ex2.candidates).
Proof.
  assert (H : Forall exact_size Ex2.candidates).
  { repeat constructor; vm_compute; discriminate. }
  split; [exact H|]. split; [vm_compute; reflexivity|].
  split; [vm_compute; reflexivity|].
  destruct (ranked_results_filter_rank Ex2.candidates Ex.config_a H)
    as (_ & _ & Hp & Hs & Hst).
  split; [exact Hp|]. split; [exact Hs|exact Hst].
Defined.

(** C2, as stated, fails in two ways. The output is not a subsequence of
    the input: of two candidates that come smaller first, both kept, the
    larger is put first. And a candidate of 2^53 + 1 bytes is kept under a
    ceiling of 8388608 GiB although its size in GiB exceeds the ceiling:
    the float quotient is rounded down to the ceiling. *)
Lemma ranked_results_not_subsequence :
  (ranked_results Ex2.smaller_first Ex2.config_folder
   = [(Ex.fichier_link, Ex.movie); ("https://1fichier.com/?cam", Ex.cam)]
   /\ ~ ranked_results Ex2.smaller_first Ex2.config_folder
         `sublist_of` Ex2.smaller_first)
  /\ In (Ex.fichier_link, Ex.huge)
       (ranked_results [(Ex.fichier_link, Ex.huge)] Ex.config_huge)
  /\ (inject_Z 8388608 < size_gb Ex.huge)%Q
  /\ ~ satisfies_filters Ex.config_huge (Ex.fichier_link, Ex.huge).
Proof.
  assert (Hr : ranked_results Ex2.smaller_first Ex2.config_folder
               = [(Ex.fichier_link, Ex.movie); ("https://1fichier.com/?cam", Ex.cam)])
    by (vm_compute; reflexivity).
  split; [split; [exact Hr|]|].
  - rewrite Hr. unfold Ex2.smaller_first. intros H.
    apply sublist_cons_r in H as [H|(l & E & _)]; [|discriminate E].
    apply sublist_cons_r in H as [H|(l & E & H)].
    + apply sublist_nil_r in H. discriminate H.
    + injection E as <-. apply sublist_nil_r in H. discriminate H.
  - split; [vm_compute; left; reflexivity|].
    split; [reflexivity|].
    intros [Hc _]. specialize (Hc 8388608%Z eq_refl).
    revert Hc. vm_compute. intros Hc. apply Hc. reflexivity.
Qed.

(** C9, as stated, fails for a candidate of 2^53 + 1 bytes under a ceiling
    of 8388608 GiB: the quotient by 2^30 is strictly greater than the
    ceiling, the value compared is the binary64 nearest to it, which is the
    ceiling itself, and the candidate is kept. *)
Lemma ceiling_test_rounds :
  (inject_Z 8388608 < filesize Ex.huge # 1073741824)%Q
  /\ ~ (true_div_gib (filesize Ex.huge) == filesize Ex.huge # 1073741824)%Q
  /\ In (Ex.fichier_link, Ex.huge)
       (ranked_results [(Ex.fichier_link, Ex.huge)] Ex.config_huge).
Proof.
  split; [reflexivity|]. split.
  - vm_compute. discriminate.
  - vm_compute. left. reflexivity.
Qed.

Lemma ceiling_test_exact_witness :
  true_div_gib (filesize Ex.movie) = filesize Ex.movie # 1073741824
  /\ In (Ex.fichier_link, Ex.movie)
       (ranked_results [(Ex.fichier_link, Ex.movie)] Ex.config_a)
  /\ ~ In (Ex.fichier_link, Ex.movie)
         (ranked_results [(Ex.fichier_link, Ex.movie)] Ex.config_b).
Proof.
  assert (Hsize : (Z.abs (filesize Ex.movie) <= 2 ^ 53)%Z) by (vm_compute; discriminate).
  destruct (ceiling_test_exact [(Ex.fichier_link, Ex.movie)] Ex.config_a
              Ex.fichier_link Ex.movie 10%Z Hsize eq_refl (or_introl eq_refl))
    as (Hgb & _ & Hkeep).
  destruct (ceiling_test_exact [(Ex.fichier_link, Ex.movie)] Ex.config_b
              Ex.fichier_link Ex.movie 4%Z Hsize eq_refl (or_introl eq_refl))
    as (_ & Hdrop & _).
  split; [exact Hgb|]. split.
  - apply Hkeep.
    + vm_compute. discriminate.
    + intros exclusion E. injection E as <-. vm_compute. intros [H|[]].
      discriminate H.
  - apply Hdrop. reflexivity.
Defined.

Lemma results_data_partial_failure_witness :
  results_data_of Ex.detect_quality Ex.get_file_info
    [Ex.fichier_link; Ex.other_link; "https://1fichier.com/?twin"]
  = [(Ex.fichier_link, default_data Ex.fichier_link);
     (Ex.other_link, default_data Ex.other_link);
     ("https://1fichier.com/?twin",
      {| data_link := "https://1fichier.com/?twin"; filesize := 5 * Ex.gib;
         quality := "1080p"; nombre_fichero := Some "Movie.1080p.mkv" |})]
  /\ forall data,
       In (Ex.fichier_link, data)
          (results_data_of Ex.detect_quality Ex.get_file_info
             [Ex.fichier_link; Ex.other_link; "https://1fichier.com/?twin"]) ->
       data = default_data Ex.fichier_link.
Proof.
  split; [vm_compute; reflexivity|].
  assert (Hkey : forall i link t,
             tasks_of [Ex.fichier_link; Ex.other_link; "https://1fichier.com/?twin"] !! i
             = Some link ->
             Ex.get_file_info i link = Ok t -> t.2 = link).
  { intros i link t _ H. unfold Ex.get_file_info in H.
    destruct (String.eqb link Ex.fichier_link); [discriminate|].
    injection H as <-. reflexivity. }
  destruct (results_data_partial_failure Ex.detect_quality Ex.get_file_info
              [Ex.fichier_link; Ex.other_link; "https://1fichier.com/?twin"] Hkey)
    as (_ & _ & Hfail).
  apply Hfail. intros i _. vm_compute. exact I.
Defined.

(** * Further properties *)

(** ** The static index *)

Lemma fetchone_update_other (rs : list Row) (url link new_link : string) :
  url <> link ->
  fetchone (map (update_row url new_link) rs) link = fetchone rs link.
Proof.
  intros Hne. induction rs as [|x rs IH]; simpl; [reflexivity|].
  unfold update_row at 1 2 3.
  destruct (String.eqb (row_link x) url) eqn:Eu; simpl.
  - apply String.eqb_eq in Eu.
    assert (El : String.eqb (row_link x) link = false)
      by (apply String.eqb_neq; congruence).
    rewrite El. exact IH.
  - destruct (String.eqb (row_link x) link); [reflexivity|exact IH].
Qed.

Lemma update_row_link (url new_link : string) (rs : list Row) :
  map row_link (map (update_row url new_link) rs) = map row_link rs.
Proof.
  induction rs as [|x rs IH]; simpl; [reflexivity|].
  rewrite IH. unfold update_row. destruct (String.eqb (row_link x) url); reflexivity.
Qed.

Lemma rows_update_table (t : Table) (url new_link : string) (w : World) :
  rows t (snd (update_table t url new_link w))
  = map (update_row url new_link) (rows t w).
Proof. destruct t; reflexivity. Qed.

(** X1. After [update_db_movies] (or [update_db_series]) a [SELECT] of the
    updated link reads flag 1 and the new link when the table has a row for
    it, and still nothing when it has none; every other link reads as
    before; the other table, the link column and the cache are unchanged. *)
Theorem update_db_then_select (t : Table) (url new_link : string) (w : World) :
  let update_db := match t with
                   | enlaces_pelis => update_db_movies
                   | enlaces_series => update_db_series
                   end in
  let w' := snd (update_db url new_link w) in
  fetchone (rows t w') url
  = match fetchone (rows t w) url with
    | Some _ => Some (1%Z, new_link)
    | None => None
    end
  /\ (forall link, link <> url -> fetchone (rows t w') link = fetchone (rows t w) link)
  /\ (forall t', t' <> t -> rows t' w' = rows t' w)
  /\ map row_link (rows t w') = map row_link (rows t w)
  /\ final_links w' = final_links w.
Proof.
  intros update_db w'.
  assert (Hrows : rows t w' = map (update_row url new_link) (rows t w)).
  { subst w' update_db. destruct t; reflexivity. }
  split.
  { rewrite Hrows. destruct (fetchone (rows t w) url) as [r|] eqn:E.
    - exact (fetchone_update_same _ _ _ _ E).
    - exact (fetchone_update_none _ _ _ _ E). }
  split.
  { intros link Hne. rewrite Hrows. apply fetchone_update_other. congruence. }
  split.
  { intros t' Hne. subst w' update_db. destruct t, t'; try congruence; reflexivity. }
  split.
  { rewrite Hrows. apply update_row_link. }
  subst w' update_db. destruct t; reflexivity.
Qed.

(** X2. A 1fichier link that neither table holds is returned unchanged:
    both tables are queried, the movie table first, and nothing else
    happens (no promote/copy call, no update). *)
Theorem getGood1fichierlink_not_indexed
    (copy_file : string -> string -> Res (option (string * string)))
    (link file_name : string) (w : World) :
  is_1fichier link = true ->
  index_row w link = None ->
  getGood1fichierlink copy_file link file_name w
  = (Ok link,
     log (EvSelect enlaces_series link) (log (EvSelect enlaces_pelis link) w)).
Proof.
  intros H1 Hrow. unfold getGood1fichierlink. rewrite H1. simpl.
  unfold index_row in Hrow. unfold bind, select_flag. simpl.
  destruct (fetchone (pelis w) link) as [r|] eqn:Ep; [discriminate|].
  simpl. destruct (fetchone (series w) link) as [r|] eqn:Es; [discriminate|].
  reflexivity.
Qed.

(** X3. The movie table takes precedence: when it has a row for the link,
    the series table is neither queried nor changed, whatever the
    promote/copy call answers. *)
Theorem getGood1fichierlink_movie_first
    (copy_file : string -> string -> Res (option (string * string)))
    (link file_name : string) (w : World) (r : Z * string) :
  is_1fichier link = true ->
  fetchone (pelis w) link = Some r ->
  let w' := snd (getGood1fichierlink copy_file link file_name w) in
  series w' = series w
  /\ select_calls (trace w') = EvSelect enlaces_pelis link :: select_calls (trace w).
Proof.
  intros H1 Hp w'. subst w'. destruct r as [flag em].
  assert (Hrow : index_row w link = Some (enlaces_pelis, (flag, em)))
    by (unfold index_row; rewrite Hp; reflexivity).
  rewrite (getGood1fichierlink_on_row copy_file link file_name w enlaces_pelis
             flag em H1 Hrow).
  destruct ((flag =? 1)%Z && non_empty em); [split; reflexivity|]. cbv zeta.
  destruct (copy_file link file_name) as [[[from_url to_url]|]|e];
    try (split; reflexivity).
  destruct (commit_blocked enlaces_pelis link from_url w); split; reflexivity.
Qed.


(** X4. When the promote/copy call raises, the rewrite lookup raises the
    same exception and leaves the index as it was; a RealDebrid resolver
    then returns [None] without calling the unlock endpoint. *)
Theorem promote_error_skips_unlock
    (copy_file : string -> string -> Res (option (string * string)))
    (debrid_service : DebridService) (link file_name : string) (w : World)
    (t : Table) (flag : Z) (em : string) (e : exn) :
  is_1fichier link = true ->
  index_row w link = Some (t, (flag, em)) ->
  (flag =? 1)%Z && non_empty em = false ->
  copy_file link file_name = Raise e ->
  class_name debrid_service = "RealDebrid" ->
  let lookup := getGood1fichierlink copy_file link file_name w in
  let resolved := _get_unrestricted_link copy_file debrid_service link file_name w in
  fst lookup = Raise e
  /\ pelis (snd lookup) = pelis w /\ series (snd lookup) = series w
  /\ fst resolved = Ok PNone
  /\ unlock_calls (trace (snd resolved)) = unlock_calls (trace w).
Proof.
  intros H1 Hrow Hfl Hcopy Hclass lookup resolved.
  destruct (getGood1fichierlink_fresh copy_file link file_name w t flag em
              H1 Hrow Hfl) as (w1 & Ew & _ & Hcase).
  rewrite Hcopy in Hcase. destruct Hcase as (Hr & Hp & Hs).
  assert (Hl : lookup = (Raise e, w1)).
  { subst lookup. destruct (getGood1fichierlink copy_file link file_name w).
    simpl in *. congruence. }
  assert (Hres : resolved = (Ok PNone, w1)).
  { subst resolved.
    exact (rewrite_lookup_error_is_absent copy_file debrid_service link
             file_name w w1 e Hclass Hl). }
  rewrite Hl, Hres. simpl. repeat split; auto.
  clear - Ew H1 Hrow Hfl Hcopy.
  subst w1. unfold getGood1fichierlink. rewrite H1. simpl.
  unfold index_row in Hrow. unfold bind, select_flag, await. simpl.
  destruct (fetchone (pelis w) link) as [[f x]|] eqn:Ep.
  - inversion Hrow; subst. simpl. rewrite Hfl, Hcopy. reflexivity.
  - destruct (fetchone (series w) link) as [[f x]|] eqn:Es; [|discriminate].
    inversion Hrow; subst. simpl. rewrite Es. simpl. rewrite Hfl, Hcopy.
    reflexivity.
Qed.


(** ** The resolver *)

Lemma get_unrestricted_link_world_other_class
    (copy_file : string -> string -> Res (option (string * string)))
    (debrid_service : DebridService) (original_link file_name : string)
    (w : World) :
  class_name debrid_service <> "RealDebrid" ->
  snd (_get_unrestricted_link copy_file debrid_service original_link file_name w)
  = log (EvUnrestrict (class_name debrid_service) original_link) w.
Proof.
  intros Hr. apply String.eqb_neq in Hr.
  unfold _get_unrestricted_link, try_except, _get_unrestricted_link_try,
    bind, await.
  rewrite Hr. cbn -[String.eqb truthy].
  destruct (unrestrict_link debrid_service original_link) as [v|e];
    cbn -[String.eqb truthy]; [|reflexivity].
  destruct (truthy v); cbn -[String.eqb]; [|reflexivity].
  destruct (String.eqb (class_name debrid_service) "AllDebrid"); [|reflexivity].
  destruct v as [| | | |items]; cbn; try reflexivity.
  destruct (from_option id (PDict []) (assoc_get items "data"));
    reflexivity.
Qed.

(** X6. Through a backend of any class other than RealDebrid the resolver
    does one thing to the world, whatever the unlock endpoint answers: one
    unlock call, for the original link. The index is neither queried nor
    changed and no promote/copy call is made, also for a 1fichier link. *)
Theorem resolver_without_rewrite
    (copy_file : string -> string -> Res (option (string * string)))
    (debrid_service : DebridService) (original_link file_name : string)
    (w : World) :
  class_name debrid_service <> "RealDebrid" ->
  let w' := snd (_get_unrestricted_link copy_file debrid_service original_link
                   file_name w) in
  trace w' = EvUnrestrict (class_name debrid_service) original_link :: trace w
  /\ pelis w' = pelis w /\ series w' = series w
  /\ select_calls (trace w') = select_calls (trace w)
  /\ copy_calls (trace w') = copy_calls (trace w).
Proof.
  intros Hr w'. subst w'.
  rewrite (get_unrestricted_link_world_other_class copy_file debrid_service
             original_link file_name w Hr).
  repeat split; reflexivity.
Qed.

(** X7. An AllDebrid answer is read at [data.link]: the resolver returns
    that value when the non-empty answer has a dictionary under [data],
    and [None] when [data] or [link] is missing or when [data] is not a
    dictionary. *)
Theorem all_debrid_nested_link
    (copy_file : string -> string -> Res (option (string * string)))
    (debrid_service : DebridService) (original_link file_name : string)
    (w : World) (items : list (string * PyVal)) :
  class_name debrid_service = "AllDebrid" ->
  unrestrict_link debrid_service original_link = Ok (PDict items) ->
  items <> [] ->
  fst (_get_unrestricted_link copy_file debrid_service original_link file_name w)
  = Ok match assoc_get items "data" with
       | Some (PDict data) => from_option id PNone (assoc_get data "link")
       | Some _ => PNone
       | None => PNone
       end.
Proof.
  intros Hc Hu Hi.
  assert (Htr : truthy (PDict items) = true)
    by (destruct items; [congruence|reflexivity]).
  unfold _get_unrestricted_link, try_except, _get_unrestricted_link_try,
    bind, await.
  rewrite Hc. cbn -[truthy assoc_get]. rewrite Hu.
  cbn -[truthy assoc_get]. rewrite Htr. cbn -[assoc_get].
  destruct (assoc_get items "data") as [[| | | |data]|]; reflexivity.
Qed.

(** X8. What a RealDebrid resolver returns once the rewrite lookup gave a
    link and the unlock endpoint answered a non-empty dictionary for it:
    the link found in the configured folder when a folder is configured,
    the answer names the file and the folder lookup finds something; the
    [download] field of the answer when no folder is configured, the file
    is not named or the folder lookup finds nothing; [None] when the folder
    lookup raises. The unlock call is made for the link given by the
    rewrite lookup. *)
Theorem real_debrid_result
    (copy_file : string -> string -> Res (option (string * string)))
    (debrid_service : DebridService) (original_link file_name : string)
    (w w1 : World) (link_to_unrestrict : string) (items : list (string * PyVal)) :
  class_name debrid_service = "RealDebrid" ->
  getGood1fichierlink copy_file original_link file_name w
  = (Ok link_to_unrestrict, w1) ->
  unrestrict_link debrid_service link_to_unrestrict = Ok (PDict items) ->
  items <> [] ->
  let resolved :=
    _get_unrestricted_link copy_file debrid_service original_link file_name w in
  let download := from_option id PNone (assoc_get items "download") in
  let name := from_option id PNone (assoc_get items "filename") in
  fst resolved
  = Ok match debridHttp (service_config debrid_service) with
       | Some folder =>
           if non_empty folder && truthy name then
             match find_link_in_folder debrid_service folder name with
             | Ok folder_link => if truthy folder_link then folder_link else download
             | Raise _ => PNone
             end
           else download
       | None => download
       end
  /\ unlock_calls (trace (snd resolved))
     = EvUnrestrict "RealDebrid" link_to_unrestrict :: unlock_calls (trace w1).
Proof.
  intros Hc Hg Hu Hi resolved download name. subst resolved download name.
  assert (Htr : truthy (PDict items) = true)
    by (destruct items; [congruence|reflexivity]).
  unfold _get_unrestricted_link, try_except, _get_unrestricted_link_try,
    bind, await.
  rewrite Hc. cbn -[truthy assoc_get]. rewrite Hg, Hu.
  cbn -[truthy assoc_get]. rewrite Htr.
  cbn -[truthy assoc_get non_empty].
  destruct (debridHttp (service_config debrid_service)) as [folder|];
    [|split; reflexivity].
  destruct (non_empty folder); cbn -[truthy assoc_get]; [|split; reflexivity].
  destruct (truthy (from_option id PNone (assoc_get items "filename")));
    cbn -[truthy assoc_get]; [|split; reflexivity].
  destruct (find_link_in_folder debrid_service folder
              (from_option id PNone (assoc_get items "filename")))
    as [folder_link|e]; cbn -[truthy assoc_get]; [|split; reflexivity].
  destruct (truthy folder_link); split; reflexivity.
Qed.

(** ** Relations kept by every run *)

Section Frames.

Variable R : World -> World -> Prop.
Hypothesis R_refl : forall w, R w w.
Hypothesis R_trans : forall w1 w2 w3, R w1 w2 -> R w2 w3 -> R w1 w3.

Lemma respects_ret {A} (a : A) : respects R (ret a).
Proof. intros w. apply R_refl. Qed.

Lemma respects_raise {A} (e : exn) : respects R (@raise A e).
Proof. intros w. apply R_refl. Qed.

Lemma respects_bind {A B} (m : M A) (k : A -> M B) :
  respects R m -> (forall a, respects R (k a)) -> respects R (bind m k).
Proof.
  intros Hm Hk w. unfold bind. specialize (Hm w).
  destruct (m w) as [[a|e] w1]; simpl in *; [|exact Hm].
  exact (R_trans _ _ _ Hm (Hk a w1)).
Qed.

Lemma respects_try_except {A} (body : M A) (handler : exn -> M A) :
  respects R body -> (forall e, respects R (handler e)) ->
  respects R (try_except body handler).
Proof.
  intros Hm Hk w. unfold try_except. specialize (Hm w).
  destruct (body w) as [[a|e] w1]; simpl in *; [exact Hm|].
  exact (R_trans _ _ _ Hm (Hk e w1)).
Qed.

Lemma respects_py_get (d : PyVal) (key : string) (default : PyVal) :
  respects R (py_get d key default).
Proof. destruct d; simpl; auto using @respects_ret, @respects_raise. Qed.

Hypothesis R_log_select : forall t link w, R w (log (EvSelect t link) w).
Hypothesis R_log_copy : forall link file_name w, R w (log (EvCopy link file_name) w).
Hypothesis R_update : forall t url new_link w, R w (snd (update_table t url new_link w)).

Variable copy_file : string -> string -> Res (option (string * string)).

Lemma respects_getGood1fichierlink (link file_name : string) :
  respects R (getGood1fichierlink copy_file link file_name).
Proof.
  unfold getGood1fichierlink.
  destruct (negb (is_1fichier link)); [apply respects_ret|].
  generalize [enlaces_pelis; enlaces_series]. intros tables.
  induction tables as [|table rest IH]; simpl; [apply respects_ret|].
  apply respects_bind; [intros w; apply R_log_select|].
  intros [[flag em]|]; [|exact IH].
  destruct ((flag =? 1)%Z && non_empty em); [apply respects_ret|].
  apply respects_bind; [intros w; apply R_log_copy|].
  intros [[from_url to_url]|]; [|apply respects_ret].
  apply respects_bind; [|intros; apply respects_ret].
  intros w. unfold while_selecting.
  destruct (commit_blocked table link from_url w); [apply R_refl|].
  destruct table; apply R_update.
Qed.

Hypothesis R_log_unrestrict : forall name link w, R w (log (EvUnrestrict name link) w).
Hypothesis R_log_folder : forall folder name w, R w (log (EvFolder folder name) w).

Lemma respects_get_unrestricted_link (debrid_service : DebridService)
    (original_link file_name : string) :
  respects R (_get_unrestricted_link copy_file debrid_service original_link file_name).
Proof.
  unfold _get_unrestricted_link, _get_unrestricted_link_try.
  apply respects_try_except; [|intros; apply respects_ret].
  apply respects_bind.
  { destruct (String.eqb _ _);
      [apply respects_getGood1fichierlink|apply respects_ret]. }
  intros link_to_unrestrict.
  apply respects_bind; [intros w; apply R_log_unrestrict|].
  intros unrestricted_data.
  destruct (negb (truthy unrestricted_data)); [apply respects_ret|].
  destruct (String.eqb (class_name debrid_service) "RealDebrid").
  - apply respects_bind.
    + destruct (debridHttp _) as [folder|]; [|apply respects_ret].
      destruct (non_empty folder); [|apply respects_ret].
      apply respects_bind; [apply respects_py_get|].
      intros name. destruct (truthy name); [|apply respects_ret].
      intros w; apply R_log_folder.
    + intros folder_link. destruct (truthy folder_link);
        [apply respects_ret|apply respects_py_get].
  - destruct (String.eqb (class_name debrid_service) "AllDebrid");
      [|apply respects_ret].
    apply respects_bind; [apply respects_py_get|].
    intros data. apply respects_py_get.
Qed.

Hypothesis R_hset : forall key entry w, R w (snd (hset_final_links key entry w)).

Variable encodeb64 : string -> string.

Lemma respects_cache_links (valid_results : list (string * Data)) (config : Config)
    (debrid_service : DebridService) :
  respects R (cache_links copy_file encodeb64 valid_results config debrid_service).
Proof.
  induction valid_results as [|[link data] rest IH]; simpl; [apply respects_ret|].
  apply respects_bind; [|intros; exact IH].
  unfold cache_link. apply respects_bind; [apply respects_get_unrestricted_link|].
  intros final_link. destruct (truthy final_link); [|apply respects_ret].
  intros w. apply R_hset.
Qed.

Variable decodeb64 : string -> string.
Variable parse_config : string -> Config.
Variable get_debrid_service : Config -> DebridService.

Lemma respects_handle_playback (config_str query file_name : string) :
  respects R (_handle_playback copy_file decodeb64 parse_config get_debrid_service
                config_str query file_name).
Proof.
  unfold _handle_playback.
  destruct (negb (non_empty query)); [apply respects_raise|].
  apply respects_bind.
  - unfold cached_final_link. apply respects_bind; [intros w; apply R_refl|].
    intros [cached_data|]; [|apply respects_ret].
    destruct (bool_decide _); apply respects_ret.
  - intros [final_link|]; [apply respects_ret|].
    unfold resolve_now.
    apply respects_bind; [apply respects_get_unrestricted_link|].
    intros final_link. destruct (truthy final_link);
      [apply respects_ret|apply respects_raise].
Qed.

End Frames.

Lemma same_links_refl (w : World) : same_links w w.
Proof. split; reflexivity. Qed.

Lemma same_links_trans (w1 w2 w3 : World) :
  same_links w1 w2 -> same_links w2 w3 -> same_links w1 w3.
Proof. intros [H1 H2] [H3 H4]. split; congruence. Qed.

Lemma same_links_update (t : Table) (url new_link : string) (w : World) :
  same_links w (snd (update_table t url new_link w)).
Proof.
  destruct t; split; simpl; try reflexivity; apply update_row_link.
Qed.

(** X9. Resolving never adds, removes or re-keys a row of the index: after
    any run of the resolver, of the orchestrator or of the playback
    resolver, both tables hold the same links as before, row by row. Only
    the flag and the replacement of a row can change. *)
Theorem index_links_invariant
    (copy_file : string -> string -> Res (option (string * string)))
    (encodeb64 decodeb64 : string -> string)
    (parse_config : string -> Config)
    (get_debrid_service : Config -> DebridService) :
  (forall debrid_service original_link file_name,
      respects same_links
        (_get_unrestricted_link copy_file debrid_service original_link file_name))
  /\ (forall results_data config debrid_service,
        respects same_links
          (_process_and_cache_links copy_file encodeb64 results_data config
             debrid_service))
  /\ (forall config_str query file_name,
        respects same_links
          (_handle_playback copy_file decodeb64 parse_config get_debrid_service
             config_str query file_name)).
Proof.
  split; [|split]; intros.
  - apply respects_get_unrestricted_link;
      first [ exact same_links_refl | exact same_links_trans
            | exact same_links_update | intros; split; reflexivity ].
  - unfold _process_and_cache_links. apply respects_cache_links;
      first [ exact same_links_refl | exact same_links_trans
            | exact same_links_update | intros; split; reflexivity ].
  - apply respects_handle_playback;
      first [ exact same_links_refl | exact same_links_trans
            | exact same_links_update | intros; split; reflexivity ].
Qed.

Lemma getGood1fichierlink_no_unlock
    (copy_file : string -> string -> Res (option (string * string)))
    (link file_name : string) (w : World) :
  unlock_calls (trace (snd (getGood1fichierlink copy_file link file_name w)))
  = unlock_calls (trace w).
Proof.
  apply (respects_getGood1fichierlink
           (fun w w' => unlock_calls (trace w') = unlock_calls (trace w)));
    try reflexivity.
  - intros w1 w2 w3 H1 H2. congruence.
  - intros t url new_link w0. destruct t; reflexivity.
Qed.

Lemma real_debrid_world_after_lookup
    (copy_file : string -> string -> Res (option (string * string)))
    (debrid_service : DebridService) (original_link file_name : string)
    (w w1 : World) (link_to_unrestrict : string) :
  class_name debrid_service = "RealDebrid" ->
  getGood1fichierlink copy_file original_link file_name w
  = (Ok link_to_unrestrict, w1) ->
  let w' := snd (_get_unrestricted_link copy_file debrid_service original_link
                   file_name w) in
  unlock_calls (trace w')
  = EvUnrestrict "RealDebrid" link_to_unrestrict :: unlock_calls (trace w)
  /\ copy_calls (trace w') = copy_calls (trace w1)
  /\ pelis w' = pelis w1 /\ series w' = series w1.
Proof.
  intros Hc Hg w'. subst w'.
  pose proof (getGood1fichierlink_no_unlock copy_file original_link file_name w)
    as Hnu. rewrite Hg in Hnu. simpl in Hnu. rewrite <- Hnu.
  unfold _get_unrestricted_link, try_except, _get_unrestricted_link_try,
    bind, await.
  rewrite Hc. cbn -[truthy assoc_get]. rewrite Hg.
  destruct (unrestrict_link debrid_service link_to_unrestrict) as [v|e];
    cbn -[truthy assoc_get non_empty]; [|repeat split; reflexivity].
  destruct (truthy v); cbn -[truthy assoc_get non_empty];
    [|repeat split; reflexivity].
  destruct (debridHttp (service_config debrid_service)) as [folder|].
  - destruct (non_empty folder); cbn -[truthy assoc_get].
    + destruct v as [| | | |items]; cbn -[truthy assoc_get];
        try (repeat split; reflexivity).
      destruct (truthy (from_option id PNone (assoc_get items "filename")));
        cbn -[truthy assoc_get]; [|repeat split; reflexivity].
      destruct (find_link_in_folder debrid_service folder
                  (from_option id PNone (assoc_get items "filename")))
        as [folder_link|e]; cbn -[truthy assoc_get];
        [|repeat split; reflexivity].
      destruct (truthy folder_link); repeat split; reflexivity.
    + destruct v; repeat split; reflexivity.
  - cbn -[truthy assoc_get]. destruct v; repeat split; reflexivity.
Qed.

(** X10. A RealDebrid resolver unlocks what the rewrite lookup returns,
    not the original link: whatever the unlock endpoint answers, the run
    records exactly one unlock call, for the link given by the lookup, and
    makes no promote/copy call after the lookup. *)
Theorem real_debrid_unlocks_lookup_result
    (copy_file : string -> string -> Res (option (string * string)))
    (debrid_service : DebridService) (original_link file_name : string)
    (w w1 : World) (link_to_unrestrict : string) :
  class_name debrid_service = "RealDebrid" ->
  getGood1fichierlink copy_file original_link file_name w
  = (Ok link_to_unrestrict, w1) ->
  let w' := snd (_get_unrestricted_link copy_file debrid_service original_link
                   file_name w) in
  unlock_calls (trace w')
  = EvUnrestrict "RealDebrid" link_to_unrestrict :: unlock_calls (trace w)
  /\ copy_calls (trace w') = copy_calls (trace w1)
  /\ pelis w' = pelis w1 /\ series w' = series w1.
Proof.
  intros Hc Hg.
  exact (real_debrid_world_after_lookup copy_file debrid_service original_link
           file_name w w1 link_to_unrestrict Hc Hg).
Qed.

(** ** The orchestrator *)

Section OrchestratorRuns.

Variable copy_file : string -> string -> Res (option (string * string)).
Variable encodeb64 : string -> string.

Lemma get_unrestricted_link_unlock_bound (debrid_service : DebridService)
    (original_link file_name : string) (w : World) :
  (length (unlock_calls
             (trace (snd (_get_unrestricted_link copy_file debrid_service
                            original_link file_name w))))
   <= S (length (unlock_calls (trace w))))%nat.
Proof.
  destruct (String.eqb (class_name debrid_service) "RealDebrid") eqn:Ec.
  - apply String.eqb_eq in Ec.
    destruct (getGood1fichierlink copy_file original_link file_name w)
      as [[l'|e] w1] eqn:Hg.
    + destruct (real_debrid_world_after_lookup copy_file debrid_service
                  original_link file_name w w1 l' Ec Hg) as [Hu _].
      rewrite Hu. simpl. lia.
    + rewrite (rewrite_lookup_error_is_absent copy_file debrid_service
                 original_link file_name w w1 e Ec Hg). simpl.
      pose proof (getGood1fichierlink_no_unlock copy_file original_link
                    file_name w) as Hnu.
      rewrite Hg in Hnu. simpl in Hnu. rewrite Hnu. lia.
  - apply String.eqb_neq in Ec.
    rewrite (get_unrestricted_link_world_other_class copy_file debrid_service
               original_link file_name w Ec). simpl. lia.
Qed.

Lemma cache_links_bounds (valid_results : list (string * Data)) (config : Config)
    (debrid_service : DebridService) (w : World) :
  let run := cache_links copy_file encodeb64 valid_results config debrid_service w in
  fst run = Ok tt
  /\ (cache_writes (trace (snd run))
      <= cache_writes (trace w) + length valid_results)%nat
  /\ (length (unlock_calls (trace (snd run)))
      <= length (unlock_calls (trace w)) + length valid_results)%nat.
Proof.
  revert w. induction valid_results as [|[link data] rest IH]; intros w; simpl.
  - repeat split; lia.
  - unfold bind.
    destruct (cache_link_turn copy_file encodeb64 config debrid_service link data w)
      as (v & w1 & Hres & Hturn).
    rewrite Hturn.
    destruct (keeps_cache_get_unrestricted_link copy_file debrid_service link
                (file_name_of data) w) as [_ Hcw].
    pose proof (get_unrestricted_link_unlock_bound debrid_service link
                  (file_name_of data) w) as Hub.
    rewrite Hres in Hcw, Hub. simpl in Hcw, Hub.
    match goal with
    | |- context [cache_links _ _ rest _ _ ?w2] =>
        destruct (IH w2) as (Hok & Hc & Hu);
        assert (Hw2 : (cache_writes (trace w2) <= S (cache_writes (trace w)))%nat
                      /\ (length (unlock_calls (trace w2))
                          <= S (length (unlock_calls (trace w))))%nat)
    end.
    { destruct (truthy v); unfold cache_writes, unlock_calls in *; simpl; split; lia. }
    repeat split; [exact Hok|lia|lia].
Qed.

(** X11. A run of the orchestrator makes at most one cache write and at
    most one unlock call per candidate that passed the filters, and the
    candidates that passed are no more than the candidates given. *)
Theorem orchestrator_call_bounds (results_data : list (string * Data))
    (config : Config) (debrid_service : DebridService) (w : World) :
  let run := _process_and_cache_links copy_file encodeb64 results_data config
               debrid_service w in
  let ranked := ranked_results results_data config in
  (cache_writes (trace (snd run)) <= cache_writes (trace w) + length ranked)%nat
  /\ (length (unlock_calls (trace (snd run)))
      <= length (unlock_calls (trace w)) + length ranked)%nat
  /\ (length ranked <= length results_data)%nat.
Proof.
  intros run ranked. subst run ranked. unfold _process_and_cache_links.
  destruct (cache_links_bounds (ranked_results results_data config) config
              debrid_service w) as (_ & Hc & Hu).
  repeat split; [exact Hc|exact Hu|].
  unfold ranked_results. rewrite valid_results_of_filter.
  rewrite (Permutation_length (sort_by_filesize_desc_perm _)).
  apply length_filter.
Qed.

Lemma cache_links_provenance (valid_results : list (string * Data))
    (config : Config) (debrid_service : DebridService) (w : World)
    (key : string) (entry : Entry) :
  final_links
    (snd (cache_links copy_file encodeb64 valid_results config debrid_service w))
  !! key = Some entry ->
  final_links w !! key = Some entry
  \/ exists link data,
       In (link, data) valid_results
       /\ entry = entry_of config link data (entry_final_link entry)
       /\ truthy (entry_final_link entry) = true
       /\ key = encodeb64 link.
Proof.
  revert w. induction valid_results as [|[link data] rest IH]; intros w; simpl.
  - intros H. left. exact H.
  - unfold bind.
    destruct (cache_link_turn copy_file encodeb64 config debrid_service link data w)
      as (v & w1 & Hres & Hturn).
    rewrite Hturn.
    destruct (keeps_cache_get_unrestricted_link copy_file debrid_service link
                (file_name_of data) w) as [Hfl _].
    rewrite Hres in Hfl. simpl in Hfl.
    intros H. apply IH in H as [H|(l & d & Hin & He & Ht & Hk)].
    + destruct (truthy v) eqn:Etv; simpl in H.
      * destruct (decide (encodeb64 link = key)) as [Heq|Hne].
        -- rewrite <- Heq, lookup_insert_eq in H. injection H as <-.
           right. exists link, data. simpl. repeat split; auto.
        -- rewrite lookup_insert_ne in H by exact Hne.
           left. rewrite <- Hfl. exact H.
      * left. rewrite <- Hfl. exact H.
    + right. exists l, d. repeat split; auto.
Qed.

(** X12. After a run of the orchestrator every cache entry either was
    there before, untouched, or was written by the run: it then carries the
    run's configuration, a truthy final link, the filesize of a candidate of
    the input that passes both filters, that candidate's link, and sits
    under the encoding of that link. A candidate that fails a filter is
    never cached by the run, and a cache that held only truthy final links
    still does. *)
Theorem orchestrator_cache_provenance (results_data : list (string * Data))
    (config : Config) (debrid_service : DebridService) (w : World) :
  let w' := snd (_process_and_cache_links copy_file encodeb64 results_data config
                   debrid_service w) in
  (forall key entry,
      final_links w' !! key = Some entry ->
      final_links w !! key = Some entry
      \/ (entry_config entry = config
          /\ truthy (entry_final_link entry) = true
          /\ key = encodeb64 (entry_link entry)
          /\ exists data,
               In (entry_link entry, data) results_data
               /\ survives config (entry_link entry, data)
               /\ entry_filesize entry = filesize data))
  /\ (cache_playable w -> cache_playable w').
Proof.
  intros w'. subst w'. unfold _process_and_cache_links.
  assert (Hprov : forall key entry,
             final_links
               (snd (cache_links copy_file encodeb64
                       (ranked_results results_data config) config debrid_service w))
             !! key = Some entry ->
             final_links w !! key = Some entry
             \/ (entry_config entry = config
                 /\ truthy (entry_final_link entry) = true
                 /\ key = encodeb64 (entry_link entry)
                 /\ exists data,
                      In (entry_link entry, data) results_data
                      /\ survives config (entry_link entry, data)
                      /\ entry_filesize entry = filesize data)).
  { intros key entry H.
    apply cache_links_provenance in H as [H|(l & d & Hin & He & Ht & Hk)];
      [left; exact H|right].
    apply ranked_results_In in Hin as [Hin Hs].
    rewrite He. simpl. split; [reflexivity|]. split; [exact Ht|].
    split; [exact Hk|]. exists d. split; [exact Hin|]. split; [exact Hs|reflexivity]. }
  split; [exact Hprov|].
  intros Hplay key entry H. apply Hprov in H as [H|(_ & Ht & _)].
  - exact (Hplay key entry H).
  - exact Ht.
Qed.

(** X13. When no candidate passes the filters (in particular on an empty
    candidate list) the orchestrator does nothing at all: no resolver call,
    no index query, no cache write. *)
Theorem orchestrator_nothing_to_do (results_data : list (string * Data))
    (config : Config) (debrid_service : DebridService) (w : World) :
  (forall c, In c results_data -> ~ survives config c) ->
  _process_and_cache_links copy_file encodeb64 results_data config debrid_service w
  = (Ok tt, w).
Proof.
  intros Hnone. unfold _process_and_cache_links.
  destruct (ranked_results results_data config) as [|c l] eqn:E; [reflexivity|].
  exfalso.
  assert (Hin : In c (ranked_results results_data config))
    by (rewrite E; left; reflexivity).
  apply ranked_results_In in Hin as [Hin Hs].
  exact (Hnone c Hin Hs).
Qed.

Lemma cache_links_unlock_order (valid_results : list (string * Data))
    (config : Config) (debrid_service : DebridService) (w : World) :
  class_name debrid_service <> "RealDebrid" ->
  unlock_calls
    (trace (snd (cache_links copy_file encodeb64 valid_results config
                   debrid_service w)))
  = rev (map (fun c => EvUnrestrict (class_name debrid_service) (fst c))
           valid_results)
    ++ unlock_calls (trace w).
Proof.
  intros Hc. revert w.
  induction valid_results as [|[link data] rest IH]; intros w; simpl.
  - reflexivity.
  - unfold bind.
    destruct (cache_link_turn copy_file encodeb64 config debrid_service link data w)
      as (v & w1 & Hres & Hturn).
    rewrite Hturn. rewrite IH.
    pose proof (get_unrestricted_link_world_other_class copy_file debrid_service
                  link (file_name_of data) w Hc) as Hw.
    rewrite Hres in Hw. simpl in Hw. subst w1.
    rewrite <- app_assoc. f_equal.
    destruct (truthy v); reflexivity.
Qed.

(** X14. Through a backend other than RealDebrid the orchestrator makes
    exactly one unlock call per candidate that passed the filters, for the
    candidate's own link, in ranked order: the largest candidate is
    unlocked first, and candidates of equal size in input order. *)
Theorem orchestrator_unlocks_in_ranked_order (results_data : list (string * Data))
    (config : Config) (debrid_service : DebridService) (w : World) :
  class_name debrid_service <> "RealDebrid" ->
  rev (unlock_calls
         (trace (snd (_process_and_cache_links copy_file encodeb64 results_data
                        config debrid_service w))))
  = rev (unlock_calls (trace w))
    ++ map (fun c => EvUnrestrict (class_name debrid_service) (fst c))
         (ranked_results results_data config).
Proof.
  intros Hc. unfold _process_and_cache_links.
  rewrite (cache_links_unlock_order _ config debrid_service w Hc).
  rewrite rev_app_distr, rev_involutive. reflexivity.
Qed.

End OrchestratorRuns.

(** ** From the orchestrator to playback *)

Section CacheThenPlayback.

Variable copy_file : string -> string -> Res (option (string * string)).
Variable encodeb64 : string -> string.
Variable decodeb64 : string -> string.
Variable parse_config : string -> Config.
Variable get_debrid_service : Config -> DebridService.

Lemma cache_links_keeps_served (valid_results : list (string * Data))
    (config : Config) (debrid_service : DebridService) (key : string) (w : World) :
  served config key w ->
  served config key
    (snd (cache_links copy_file encodeb64 valid_results config debrid_service w)).
Proof.
  revert w. induction valid_results as [|[link data] rest IH]; intros w Hs; simpl.
  - exact Hs.
  - unfold bind.
    destruct (cache_link_turn copy_file encodeb64 config debrid_service link data w)
      as (v & w1 & Hres & Hturn).
    rewrite Hturn. apply IH.
    destruct (keeps_cache_get_unrestricted_link copy_file debrid_service link
                (file_name_of data) w) as [Hfl _].
    rewrite Hres in Hfl. simpl in Hfl.
    destruct Hs as (entry & He & Hc & Ht).
    destruct (truthy v) eqn:Etv.
    + destruct (decide (encodeb64 link = key)) as [Heq|Hne].
      * exists (entry_of config link data v). simpl.
        rewrite <- Heq, lookup_insert_eq. auto.
      * exists entry. simpl. rewrite lookup_insert_ne by exact Hne.
        rewrite Hfl. auto.
    + exists entry. rewrite Hfl. auto.
Qed.

Lemma handle_playback_hit (config_str query file_name : string) (w : World)
    (entry : Entry) :
  non_empty query = true ->
  final_links w !! query = Some entry ->
  entry_config entry = parse_config config_str ->
  _handle_playback copy_file decodeb64 parse_config get_debrid_service
    config_str query file_name w
  = (Ok (entry_final_link entry), w).
Proof.
  intros Hq Hget Hc.
  unfold _handle_playback, cached_final_link, hget_final_links, bind.
  rewrite Hq. cbv beta iota delta [negb]. rewrite Hget.
  rewrite bool_decide_eq_true_2 by exact Hc. reflexivity.
Qed.

(** X15. A candidate that the orchestrator resolved is served from the
    cache afterwards. If the resolution of a ranked candidate gave a truthy
    final link at its turn, then after the run an entry of the run's
    configuration with a truthy final link sits under the encoding of the
    candidate's link, and a playback request for that key under the same
    configuration returns its final link without touching the world (no
    resolver call). When no later candidate has the same key, the entry is
    the one built for the candidate. *)
Theorem resolved_candidate_is_served (results_data : list (string * Data))
    (config : Config) (debrid_service : DebridService)
    (pre post : list (string * Data)) (link : string) (data : Data)
    (w : World) (final_link : PyVal) :
  ranked_results results_data config = pre ++ (link, data) :: post ->
  fst (_get_unrestricted_link copy_file debrid_service link (file_name_of data)
         (snd (cache_links copy_file encodeb64 pre config debrid_service w)))
  = Ok final_link ->
  truthy final_link = true ->
  non_empty (encodeb64 link) = true ->
  let w' := snd (_process_and_cache_links copy_file encodeb64 results_data config
                   debrid_service w) in
  exists entry,
    final_links w' !! encodeb64 link = Some entry
    /\ entry_config entry = config
    /\ truthy (entry_final_link entry) = true
    /\ (forall config_str file_name,
          parse_config config_str = config ->
          _handle_playback copy_file decodeb64 parse_config get_debrid_service
            config_str (encodeb64 link) file_name w'
          = (Ok (entry_final_link entry), w'))
    /\ ((forall c, In c post -> encodeb64 (fst c) <> encodeb64 link) ->
        entry = entry_of config link data final_link).
Proof.
  intros Hsplit Hres Htv Hkey w'. subst w'.
  unfold _process_and_cache_links. rewrite Hsplit.
  destruct (cache_links_app copy_file encodeb64 pre ((link, data) :: post)
              config debrid_service w) as [_ Happ].
  rewrite Happ. clear Happ.
  set (w0 := snd (cache_links copy_file encodeb64 pre config debrid_service w)) in *.
  simpl cache_links. unfold bind.
  destruct (cache_link_turn copy_file encodeb64 config debrid_service link data w0)
    as (v & w1 & Hr & Hturn).
  rewrite Hr in Hres. simpl in Hres. injection Hres as ->.
  rewrite Hturn, Htv.
  set (w2 := log (EvHSet (encodeb64 link) (entry_of config link data final_link))
               (set_final_links
                  (<[encodeb64 link := entry_of config link data final_link]>
                     (final_links w1)) w1)).
  assert (Hw2 : final_links w2 !! encodeb64 link
                = Some (entry_of config link data final_link))
    by (subst w2; simpl; apply lookup_insert_eq).
  assert (Hserved : served config (encodeb64 link) w2).
  { exists (entry_of config link data final_link). auto. }
  apply (cache_links_keeps_served post config debrid_service) in Hserved.
  destruct Hserved as (entry & He & Hc & Ht).
  exists entry. split; [exact He|]. split; [exact Hc|]. split; [exact Ht|].
  split.
  - intros config_str file_name Hp.
    apply handle_playback_hit; [exact Hkey|exact He|congruence].
  - intros Hfresh.
    apply cache_links_provenance in He as [He|(l & d & Hin & _ & _ & Hk)].
    + congruence.
    + exfalso. apply (Hfresh (l, d) Hin). simpl. congruence.
Qed.

(** X16. The playback resolver never returns an empty link: over a cache
    whose entries carry truthy final links (which the orchestrator
    maintains), whatever it returns is truthy; otherwise it raises. *)
Theorem playback_link_is_truthy (config_str query file_name : string)
    (w w' : World) (final_link : PyVal) :
  cache_playable w ->
  _handle_playback copy_file decodeb64 parse_config get_debrid_service
    config_str query file_name w
  = (Ok final_link, w') ->
  truthy final_link = true.
Proof.
  intros Hplay. unfold _handle_playback, cached_final_link, hget_final_links, bind.
  destruct (non_empty query); cbv beta iota delta [negb]; [|discriminate].
  destruct (final_links w !! query) as [entry|] eqn:Hget.
  - destruct (bool_decide (entry_config entry = parse_config config_str)).
    + intros H. injection H as <- _. exact (Hplay query entry Hget).
    + unfold ret, resolve_now, bind.
      destruct (_get_unrestricted_link _ _ _ _ w) as [[v|e] w1];
        [|discriminate].
      destruct (truthy v) eqn:Etv; [|discriminate].
      intros H. injection H as <- _. exact Etv.
  - unfold ret, resolve_now, bind.
    destruct (_get_unrestricted_link _ _ _ _ w) as [[v|e] w1];
      [|discriminate].
    destruct (truthy v) eqn:Etv; [|discriminate].
    intros H. injection H as <- _. exact Etv.
Qed.

(** X17. The playback resolver only reads the cache: for every request,
    served from the cache, resolved now, failed or rejected, the hash is
    afterwards as before and no cache write is recorded; and a request
    with an empty key is rejected with HTTP 400 before anything is looked
    up or resolved. *)
Theorem playback_reads_only (config_str query file_name : string) (w : World) :
  let run := _handle_playback copy_file decodeb64 parse_config get_debrid_service
               config_str query file_name w in
  final_links (snd run) = final_links w
  /\ cache_writes (trace (snd run)) = cache_writes (trace w)
  /\ (query = "" ->
      run = (Raise (HTTPException HTTP_400_BAD_REQUEST "Query requerido."), w)).
Proof.
  intros run. subst run.
  assert (H : (fun w0 w1 => final_links w1 = final_links w0
                            /\ cache_writes (trace w1) = cache_writes (trace w0))
                w (snd (_handle_playback copy_file decodeb64 parse_config
                          get_debrid_service config_str query file_name w))).
  { apply (respects_handle_playback
             (fun w0 w1 => final_links w1 = final_links w0
                           /\ cache_writes (trace w1) = cache_writes (trace w0))).
    - intros w0. split; reflexivity.
    - intros w1 w2 w3 [H1 H2] [H3 H4]. split; congruence.
    - intros t link w0. split; reflexivity.
    - intros link fn w0. split; reflexivity.
    - intros t url new_link w0. destruct t; split; reflexivity.
    - intros name link w0. split; reflexivity.
    - intros folder name w0. split; reflexivity. }
  destruct H as [H1 H2]. split; [exact H1|]. split; [exact H2|].
  intros ->. reflexivity.
Qed.

End CacheThenPlayback.

(** ** The candidates of a listing *)

Section ListingMore.

Variable detect_quality : string -> string.
Variable get_file_info : nat -> string -> Res InfoTuple.

Lemma tasks_of_1fichier (search_results : list string) (i : nat) (link : string) :
  tasks_of search_results !! i = Some link -> is_1fichier link = true.
Proof.
  intros H. apply list_elem_of_lookup_2 in H.
  unfold tasks_of in H. apply list_elem_of_filter in H as [H _]. exact H.
Qed.

Lemma tasks_of_length (search_results : list string) :
  length (tasks_of search_results) = length (List.filter is_1fichier search_results).
Proof.
  unfold tasks_of. induction search_results as [|x l IH]; [reflexivity|].
  rewrite filter_cons. simpl. destruct (is_1fichier x) eqn:E.
  - rewrite decide_True by reflexivity. simpl. rewrite IH. reflexivity.
  - rewrite decide_False by discriminate. exact IH.
Qed.

(** X18. Info requests are made for 1fichier links only, one per such link
    of the search result; a link of another host gets the default
    candidate (filesize 0, empty quality, no file name) whatever the info
    service would answer. *)
Theorem info_requests_for_1fichier_only (search_results : list string) :
  length (file_infos_of get_file_info search_results)
  = length (List.filter is_1fichier search_results)
  /\ forall link data,
       is_1fichier link = false ->
       In (link, data) (results_data_of detect_quality get_file_info search_results) ->
       data = default_data link.
Proof.
  split.
  - unfold file_infos_of. rewrite length_imap. apply tasks_of_length.
  - intros link data Hl Hin. unfold results_data_of in Hin.
    apply in_map_iff in Hin. destruct Hin as (l & Heq & _).
    inversion Heq; subst l data. unfold data_of. rewrite Hl. reflexivity.
Qed.

Lemma info_map_fold_skip (rest : list (Res InfoTuple)) (m : gmap string InfoTuple)
    (key : string) :
  (forall j t, rest !! j = Some (Ok t) -> t.2 <> key) ->
  foldl (fun m info =>
           match info with
           | Ok t => <[t.2 := t]> m
           | Raise _ => m
           end) m rest !! key = m !! key.
Proof.
  revert m. induction rest as [|info rest IH]; intros m H; simpl; [reflexivity|].
  rewrite IH.
  - destruct info as [t|e]; [|reflexivity].
    apply lookup_insert_ne. exact (H 0%nat t eq_refl).
  - intros j t Hj. exact (H (S j) t Hj).
Qed.

Lemma info_map_fold_last (file_infos : list (Res InfoTuple))
    (m : gmap string InfoTuple) (i : nat) (t : InfoTuple) :
  file_infos !! i = Some (Ok t) ->
  (forall j t', (i < j)%nat -> file_infos !! j = Some (Ok t') -> t'.2 <> t.2) ->
  foldl (fun m info =>
           match info with
           | Ok t => <[t.2 := t]> m
           | Raise _ => m
           end) m file_infos !! t.2 = Some t.
Proof.
  revert m i. induction file_infos as [|info rest IH]; intros m i Hi Hlater.
  - destruct i; discriminate.
  - destruct i as [|i]; simpl in *.
    + injection Hi as ->. rewrite info_map_fold_skip.
      * apply lookup_insert_eq.
      * intros j t' Hj. apply (Hlater (S j) t'); [lia|exact Hj].
    + apply (IH _ i Hi). intros j t' Hlt Hj.
      apply (Hlater (S j) t'); [lia|exact Hj].
Qed.

(** X19. A candidate whose info request succeeded carries the answer: its
    filesize is the reported size (0 when the answer has none), its file
    name the reported name (empty when the answer has none) and its
    quality the one detected in that name. When several requests were
    answered under the link's key, the last one counts. *)
Theorem enriched_candidate (search_results : list string) (i : nat)
    (link : string) (x : PyVal) (info : Info) :
  tasks_of search_results !! i = Some link ->
  get_file_info i link = Ok (x, Some info, link) ->
  (forall j l t, (i < j)%nat ->
      tasks_of search_results !! j = Some l ->
      get_file_info j l = Ok t -> t.2 <> link) ->
  forall data,
    In (link, data) (results_data_of detect_quality get_file_info search_results) ->
    data = {| data_link := link;
              filesize := from_option id 0%Z (size info);
              quality := detect_quality (from_option id "" (filename info));
              nombre_fichero := Some (from_option id "" (filename info)) |}.
Proof.
  intros Ht Hg Hlater data Hin.
  unfold results_data_of in Hin.
  apply in_map_iff in Hin. destruct Hin as (l & Heq & _).
  inversion Heq; subst l data.
  unfold data_of. rewrite (tasks_of_1fichier _ _ _ Ht).
  assert (Hm : info_map_of (file_infos_of get_file_info search_results) !! link
               = Some (x, Some info, link)).
  { apply (info_map_fold_last _ ∅ i (x, Some info, link)).
    - unfold file_infos_of. rewrite list_lookup_imap, Ht. simpl.
      rewrite Hg. reflexivity.
    - intros j t' Hlt Hj. unfold file_infos_of in Hj.
      rewrite list_lookup_imap in Hj.
      destruct (tasks_of search_results !! j) as [l|] eqn:Etj; [|discriminate].
      simpl in Hj. injection Hj as Hj. simpl.
      exact (Hlater j l t' Hlt Etj Hj). }
  rewrite Hm. reflexivity.
Qed.

End ListingMore.

(** ** The availability check *)

Section HostStatusProperties.

Variable lower : string -> string.

Lemma scan_hosts_values (items : list (string * PyVal)) (status : string) :
  scan_hosts lower items = Ok status -> status = "up" \/ status = "down".
Proof.
  induction items as [|[host info] rest IH]; simpl.
  - intros H. injection H as <-. left. reflexivity.
  - destruct (str_contains "1fichier" (lower host)); [|exact IH].
    destruct info as [| | | |fields]; try discriminate.
    destruct (from_option id (PStr "") (assoc_get fields "status"));
      try discriminate.
    destruct (negb (String.eqb (lower s) "up")); intros H; injection H as <-; auto.
Qed.

Lemma scan_hosts_down (items : list (string * PyVal)) :
  scan_hosts lower items = Ok "down"
  <-> exists pre host info post,
        items = pre ++ (host, info) :: post
        /\ Forall (fun p => str_contains "1fichier" (lower (fst p)) = false) pre
        /\ str_contains "1fichier" (lower host) = true
        /\ reports_down lower info.
Proof.
  induction items as [|[host info] rest IH]; simpl.
  - split; [discriminate|].
    intros (pre & h & i & post & H & _). destruct pre; discriminate.
  - destruct (str_contains "1fichier" (lower host)) eqn:Eh.
    + split.
      * intros H. exists [], host, info, rest.
        split; [reflexivity|]. split; [constructor|]. split; [exact Eh|].
        destruct info as [| | | |fields]; try discriminate.
        destruct (from_option id (PStr "") (assoc_get fields "status"))
          as [| | |status|] eqn:Es; try discriminate.
        exists fields, status. split; [reflexivity|]. split; [exact Es|].
        destruct (String.eqb (lower status) "up") eqn:Eu; [discriminate|].
        apply String.eqb_neq. exact Eu.
      * intros (pre & h & i & post & H & Hpre & Hh & Hdown).
        destruct pre as [|p pre]; simpl in H.
        -- injection H as -> -> ->.
           destruct Hdown as (fields & status & -> & Es & Hne).
           rewrite Es. apply String.eqb_neq in Hne. rewrite Hne. reflexivity.
        -- injection H as <- ->. inversion Hpre as [|? ? Hp _]; subst.
           simpl in Hp. congruence.
    + rewrite IH. split.
      * intros (pre & h & i & post & -> & Hpre & Hh & Hdown).
        exists ((host, info) :: pre), h, i, post.
        split; [reflexivity|]. split; [constructor; [exact Eh|exact Hpre]|].
        split; [exact Hh|exact Hdown].
      * intros (pre & h & i & post & H & Hpre & Hh & Hdown).
        destruct pre as [|p pre]; simpl in H.
        -- injection H as -> -> ->. congruence.
        -- injection H as <- ->. inversion Hpre; subst.
           exists pre, h, i, post. auto.
Qed.

(** X20. Without an API key the availability check stores nothing.
    Otherwise it always stores a status, "up" or "down", and the listing
    then sees 1fichier as down exactly when the request succeeded and the
    first host of the answer whose lowered name contains "1fichier"
    reports a status other than "up"; a failed request, a malformed
    answer, a missing 1fichier host or any error leave it "up". *)
Theorem availability_check (DEBRID_API_KEY : string) (response : Res PyVal)
    (stored : option string) :
  let stored' :=
    check_real_debrid_1fichier_availability lower DEBRID_API_KEY response stored in
  (non_empty DEBRID_API_KEY = false -> stored' = stored)
  /\ (non_empty DEBRID_API_KEY = true ->
      (stored' = Some "up" \/ stored' = Some "down")
      /\ (fichier_is_up stored' = false
          <-> exists pre host info post,
                response = Ok (PDict (pre ++ (host, info) :: post))
                /\ Forall (fun p => str_contains "1fichier" (lower (fst p)) = false) pre
                /\ str_contains "1fichier" (lower host) = true
                /\ reports_down lower info)).
Proof.
  intros stored'. subst stored'. unfold check_real_debrid_1fichier_availability.
  split; intros Hk; rewrite Hk; simpl; [reflexivity|].
  assert (Hup : forall P : Prop, (fichier_is_up (Some "up") = false <-> P) <-> ~ P).
  { intros P. change (fichier_is_up (Some "up")) with true.
    split; [intros [_ H] HP; specialize (H HP); discriminate|].
    intros HnP. split; [discriminate|]. intros HP. contradiction. }
  assert (Hno : forall r : Res PyVal,
             (forall items, r <> Ok (PDict items)) ->
             ~ exists pre host info post,
                 r = Ok (PDict (pre ++ (host, info) :: post))
                 /\ Forall (fun p => str_contains "1fichier" (lower (fst p)) = false) pre
                 /\ str_contains "1fichier" (lower host) = true
                 /\ reports_down lower info).
  { intros r Hr (pre & h & i & post & H & _). exact (Hr _ H). }
  unfold checked_status.
  destruct response as [[| | | |items]|e];
    try (split; [left; reflexivity|]; apply Hup, Hno; intros; discriminate).
  destruct (scan_hosts lower items) as [status|e] eqn:Es.
  - destruct (scan_hosts_values items status Es) as [->| ->].
    + split; [left; reflexivity|]. apply Hup.
      intros (pre & h & i & post & H & Hrest). injection H as ->.
      assert (Hd : scan_hosts lower (pre ++ (h, i) :: post) = Ok "down")
        by (apply scan_hosts_down; exists pre, h, i, post; auto).
      congruence.
    + split; [right; reflexivity|]. split; [intros _|reflexivity].
      apply scan_hosts_down in Es as (pre & h & i & post & -> & Hrest).
      exists pre, h, i, post. auto.
  - split; [left; reflexivity|]. apply Hup.
    intros (pre & h & i & post & H & Hrest). injection H as ->.
    assert (Hd : scan_hosts lower (pre ++ (h, i) :: post) = Ok "down")
      by (apply scan_hosts_down; exists pre, h, i, post; auto).
    congruence.
Qed.

End HostStatusProperties.

(** ** More on the filter and rank step *)

Lemma sort_by_filesize_desc_sorted_id (l : list (string * Data)) :
  StronglySorted by_size_desc l -> sort_by_filesize_desc l = l.
Proof.
  induction l as [|x l IH]; intros Hs; simpl; [reflexivity|].
  inversion Hs as [|? ? Hl Hx]; subst. rewrite (IH Hl).
  destruct l as [|y l']; simpl; [reflexivity|].
  inversion Hx as [|? ? Hxy _]; subst. unfold by_size_desc in Hxy.
  assert (E : (filesize (snd x) <? filesize (snd y))%Z = false)
    by (apply Z.ltb_ge; exact Hxy).
  rewrite E. reflexivity.
Qed.

Lemma filter_survives_sorted (config : Config) (l : list (string * Data)) :
  StronglySorted by_size_desc l ->
  StronglySorted by_size_desc (filter (survives config) l).
Proof.
  induction l as [|x l IH]; intros Hs; [constructor|].
  inversion Hs as [|? ? Hl Hx]; subst. rewrite filter_cons.
  destruct (decide (survives config x)); [|exact (IH Hl)].
  constructor; [exact (IH Hl)|].
  apply List.Forall_forall. intros y Hy.
  apply list_elem_of_In, list_elem_of_filter in Hy as [_ Hy].
  rewrite List.Forall_forall in Hx. apply Hx. apply list_elem_of_In. exact Hy.
Qed.

(** X21. On candidates that already come largest first (in particular when
    all sizes are equal, as when every info request failed) the filter and
    rank step only filters: the surviving candidates keep the order of the
    input. Hence ranking a ranked list again changes nothing. *)
Theorem ranked_results_of_sorted (results_data : list (string * Data))
    (config : Config) :
  StronglySorted by_size_desc results_data ->
  ranked_results results_data config = filter (survives config) results_data
  /\ ranked_results (ranked_results results_data config) config
     = ranked_results results_data config.
Proof.
  intros Hs.
  assert (H1 : ranked_results results_data config
               = filter (survives config) results_data).
  { unfold ranked_results. rewrite valid_results_of_filter.
    apply sort_by_filesize_desc_sorted_id, filter_survives_sorted, Hs. }
  split; [exact H1|].
  rewrite H1. unfold ranked_results. rewrite valid_results_of_filter.
  rewrite list_filter_filter.
  rewrite (list_filter_iff _ (survives config)) by tauto.
  apply sort_by_filesize_desc_sorted_id, filter_survives_sorted, Hs.
Qed.

(** X22. Raising the ceiling, or removing it, never removes a candidate
    from the ranked output: with the same exclusions, a candidate ranked
    under a ceiling is ranked under every larger ceiling and under no
    ceiling. *)
Theorem ranked_results_ceiling_monotone (results_data : list (string * Data))
    (config config' : Config) (max_size : Z) (c : string * Data) :
  maxSize config = Some max_size ->
  selectedQualityExclusion config' = selectedQualityExclusion config ->
  (forall max_size', maxSize config' = Some max_size' ->
                     (max_size <= max_size')%Z) ->
  In c (ranked_results results_data config) ->
  In c (ranked_results results_data config').
Proof.
  intros Hm Hx Hle Hin.
  apply ranked_results_In in Hin as [Hin [Hc He]].
  apply ranked_results_In. split; [exact Hin|]. split.
  - intros max_size' Hm'. specialize (Hc max_size Hm).
    eapply Qle_trans; [exact Hc|].
    rewrite <- Zle_Qle. exact (Hle max_size' Hm').
  - intros exclusion Hx'. apply He. congruence.
Qed.

(** ** The test for 1fichier links *)

Lemma prefix_app (p s : string) :
  String.prefix p s = true <-> exists post, s = (p ++ post)%string.
Proof.
  revert s. induction p as [|a p IH]; intros s; simpl.
  - split; [intros _; exists s; reflexivity|]. intros _.
    destruct s; reflexivity.
  - destruct s as [|b s]; simpl.
    + split; [discriminate|]. intros [post H]. discriminate.
    + destruct (Ascii.ascii_dec a b) as [->|Hne].
      * rewrite IH. split; intros [post H]; exists post.
        -- rewrite H. reflexivity.
        -- injection H as ->. reflexivity.
      * split; [discriminate|]. intros [post H]. injection H as Hab _.
        congruence.
Qed.

Lemma str_contains_app (needle s : string) :
  str_contains needle s = true <-> exists pre post, s = (pre ++ needle ++ post)%string.
Proof.
  induction s as [|a s IH]; cbn [str_contains].
  - rewrite orb_false_r, prefix_app. split.
    + intros [post H]. exists "", post. exact H.
    + intros (pre & post & H). destruct pre as [|b pre]; [|discriminate].
      exists post. exact H.
  - rewrite orb_true_iff, prefix_app, IH. split.
    + intros [[post H]|(pre & post & H)].
      * exists "", post. exact H.
      * exists (String a pre), post. simpl. rewrite H. reflexivity.
    + intros (pre & post & H). destruct pre as [|b pre]; simpl in H.
      * left. exists post. exact H.
      * right. injection H as _ H. exists pre, post. exact H.
Qed.

(** X23. The test that selects the links to enrich and to rewrite holds
    exactly for the links that have "1fichier" somewhere inside; it looks
    at the whole link, not at its host, and it is case sensitive. *)
Theorem is_1fichier_substring (link : string) :
  (is_1fichier link = true <-> exists pre post, link = (pre ++ "1fichier" ++ post)%string)
  /\ is_1fichier "https://example.org/mirror-of-1fichier/xyz" = true
  /\ is_1fichier "https://1FICHIER.com/?abc" = false.
Proof.
  split; [apply str_contains_app|]. split; reflexivity.
Qed.

(** ** Promote/copy calls *)

Section PromoteCalls.

Variable copy_file : string -> string -> Res (option (string * string)).
Variable encodeb64 : string -> string.

Lemma getGood1fichierlink_copy_bound (link file_name : string) (w : World) :
  (copy_calls (trace (snd (getGood1fichierlink copy_file link file_name w)))
   <= S (copy_calls (trace w)))%nat.
Proof.
  unfold getGood1fichierlink.
  destruct (negb (is_1fichier link)); simpl; [lia|].
  unfold bind, select_flag, await. simpl.
  destruct (fetchone (pelis w) link) as [[flag em]|].
  - destruct ((flag =? 1)%Z && non_empty em); simpl; [unfold copy_calls; simpl; lia|].
    destruct (copy_file link file_name) as [[[from_url to_url]|]|e];
      unfold while_selecting;
      try destruct (commit_blocked _ _ _ _);
      unfold copy_calls; simpl; lia.
  - simpl. destruct (fetchone (series w) link) as [[flag em]|];
      [|unfold copy_calls; simpl; lia].
    destruct ((flag =? 1)%Z && non_empty em); simpl; [unfold copy_calls; simpl; lia|].
    destruct (copy_file link file_name) as [[[from_url to_url]|]|e];
      unfold while_selecting;
      try destruct (commit_blocked _ _ _ _);
      unfold copy_calls; simpl; lia.
Qed.

Lemma get_unrestricted_link_copy_bound (debrid_service : DebridService)
    (original_link file_name : string) (w : World) :
  (copy_calls
     (trace (snd (_get_unrestricted_link copy_file debrid_service original_link
                    file_name w)))
   <= S (copy_calls (trace w)))%nat.
Proof.
  pose proof (getGood1fichierlink_copy_bound original_link file_name w) as Hb.
  destruct (String.eqb (class_name debrid_service) "RealDebrid") eqn:Ec.
  - apply String.eqb_eq in Ec.
    destruct (getGood1fichierlink copy_file original_link file_name w)
      as [[l'|e] w1] eqn:Hg; simpl in Hb.
    + destruct (real_debrid_world_after_lookup copy_file debrid_service
                  original_link file_name w w1 l' Ec Hg) as (_ & Hc & _).
      rewrite Hc. exact Hb.
    + rewrite (rewrite_lookup_error_is_absent copy_file debrid_service
                 original_link file_name w w1 e Ec Hg). exact Hb.
  - apply String.eqb_neq in Ec.
    rewrite (get_unrestricted_link_world_other_class copy_file debrid_service
               original_link file_name w Ec). unfold copy_calls. simpl. lia.
Qed.

Lemma cache_links_copy_bound (valid_results : list (string * Data))
    (config : Config) (debrid_service : DebridService) (w : World) :
  (copy_calls
     (trace (snd (cache_links copy_file encodeb64 valid_results config
                    debrid_service w)))
   <= copy_calls (trace w) + length valid_results)%nat.
Proof.
  revert w. induction valid_results as [|[link data] rest IH]; intros w; simpl.
  - lia.
  - unfold bind.
    destruct (cache_link_turn copy_file encodeb64 config debrid_service link data w)
      as (v & w1 & Hres & Hturn).
    rewrite Hturn.
    pose proof (get_unrestricted_link_copy_bound debrid_service link
                  (file_name_of data) w) as Hb.
    rewrite Hres in Hb. simpl in Hb.
    match goal with
    | |- context [cache_links _ _ rest _ _ ?w2] =>
        specialize (IH w2);
        assert (Hw2 : copy_calls (trace w2) = copy_calls (trace w1))
          by (destruct (truthy v); reflexivity)
    end.
    lia.
Qed.

(** X24. Promote/copy calls are made sparingly: at most one per rewrite
    lookup, at most one per run of the resolver, and at most one per
    candidate that passed the filters in a run of the orchestrator. *)
Theorem promote_calls_bound :
  (forall link file_name w,
      (copy_calls (trace (snd (getGood1fichierlink copy_file link file_name w)))
       <= S (copy_calls (trace w)))%nat)
  /\ (forall debrid_service original_link file_name w,
        (copy_calls
           (trace (snd (_get_unrestricted_link copy_file debrid_service
                          original_link file_name w)))
         <= S (copy_calls (trace w)))%nat)
  /\ (forall results_data config debrid_service w,
        (copy_calls
           (trace (snd (_process_and_cache_links copy_file encodeb64 results_data
                          config debrid_service w)))
         <= copy_calls (trace w) + length (ranked_results results_data config))%nat).
Proof.
  split; [exact getGood1fichierlink_copy_bound|].
  split; [exact get_unrestricted_link_copy_bound|].
  intros. unfold _process_and_cache_links. apply cache_links_copy_bound.
Qed.

End PromoteCalls.


(** * Worked instances of the further properties *)

Lemma getGood1fichierlink_not_indexed_witness :
  getGood1fichierlink Ex.copy_ok Ex2.unknown_link "Movie.mkv" Ex.world
  = (Ok Ex2.unknown_link,
     log (EvSelect enlaces_series Ex2.unknown_link)
       (log (EvSelect enlaces_pelis Ex2.unknown_link) Ex.world)).
Proof.
  apply (getGood1fichierlink_not_indexed Ex.copy_ok Ex2.unknown_link "Movie.mkv"
           Ex.world); reflexivity.
Defined.

Lemma getGood1fichierlink_movie_first_witness :
  select_calls
    (trace (snd (getGood1fichierlink Ex.copy_ok Ex.fichier_link "Movie.mkv" Ex.world)))
  = [EvSelect enlaces_pelis Ex.fichier_link].
Proof.
  exact (proj2 (getGood1fichierlink_movie_first Ex.copy_ok Ex.fichier_link
                  "Movie.mkv" Ex.world (0%Z, "") eq_refl eq_refl)).
Defined.

Lemma promote_error_skips_unlock_witness :
  fst (_get_unrestricted_link Ex2.copy_raises (Ex.real_debrid Ex.config_a)
         Ex.fichier_link "Movie.mkv" Ex.world)
  = Ok PNone
  /\ unlock_calls
       (trace (snd (_get_unrestricted_link Ex2.copy_raises
                      (Ex.real_debrid Ex.config_a) Ex.fichier_link "Movie.mkv"
                      Ex.world)))
     = [].
Proof.
  destruct (promote_error_skips_unlock Ex2.copy_raises (Ex.real_debrid Ex.config_a)
              Ex.fichier_link "Movie.mkv" Ex.world enlaces_pelis 0%Z ""
              (Exception "connection reset")
              eq_refl eq_refl eq_refl eq_refl eq_refl)
    as (_ & _ & _ & Hr & Hu).
  split; [exact Hr|exact Hu].
Defined.


Lemma resolver_without_rewrite_witness :
  trace (snd (_get_unrestricted_link Ex.copy_ok Ex2.all_debrid Ex.fichier_link
                "Movie.mkv" Ex.world))
  = [EvUnrestrict "AllDebrid" Ex.fichier_link].
Proof.
  assert (Hc : class_name Ex2.all_debrid <> "RealDebrid")
    by (vm_compute; discriminate).
  exact (proj1 (resolver_without_rewrite Ex.copy_ok Ex2.all_debrid Ex.fichier_link
                  "Movie.mkv" Ex.world Hc)).
Defined.

Lemma all_debrid_nested_link_witness :
  fst (_get_unrestricted_link Ex.copy_ok Ex2.all_debrid Ex.fichier_link
         "Movie.mkv" Ex.world)
  = Ok (PStr ("https://ad.example/" ++ Ex.fichier_link)).
Proof.
  assert (Hi : [("status", PStr "success");
                ("data", PDict [("link", PStr ("https://ad.example/" ++ Ex.fichier_link))])]
               <> []) by discriminate.
  exact (all_debrid_nested_link Ex.copy_ok Ex2.all_debrid Ex.fichier_link
           "Movie.mkv" Ex.world _ eq_refl eq_refl Hi).
Defined.

Lemma real_debrid_result_witness :
  fst (_get_unrestricted_link Ex.copy_ok Ex2.real_debrid_folder Ex.fichier_link
         "Movie.mkv" Ex2.world_rewritten)
  = Ok (PStr ("https://rd.example/d/" ++ Ex.copied_link)).
Proof.
  assert (Hi : [("filename", PStr "Movie.1080p.mkv");
                ("download", PStr ("https://rd.example/d/" ++ Ex.copied_link))]
               <> []) by discriminate.
  exact (proj1 (real_debrid_result Ex.copy_ok Ex2.real_debrid_folder Ex.fichier_link
                  "Movie.mkv" Ex2.world_rewritten
                  (log (EvSelect enlaces_pelis Ex.fichier_link) Ex2.world_rewritten)
                  Ex.copied_link _ eq_refl eq_refl eq_refl Hi)).
Defined.

Lemma real_debrid_unlocks_lookup_result_witness :
  unlock_calls
    (trace (snd (_get_unrestricted_link Ex.copy_ok Ex2.real_debrid_folder
                   Ex.fichier_link "Movie.mkv" Ex2.world_rewritten)))
  = [EvUnrestrict "RealDebrid" Ex.copied_link].
Proof.
  exact (proj1 (real_debrid_unlocks_lookup_result Ex.copy_ok Ex2.real_debrid_folder
                  Ex.fichier_link "Movie.mkv" Ex2.world_rewritten
                  (log (EvSelect enlaces_pelis Ex.fichier_link) Ex2.world_rewritten)
                  Ex.copied_link eq_refl eq_refl)).
Defined.

Lemma orchestrator_nothing_to_do_witness :
  _process_and_cache_links Ex.copy_ok Ex.b64 [(Ex.fichier_link, Ex.movie)]
    Ex.config_b (Ex.real_debrid Ex.config_b) Ex.world
  = (Ok tt, Ex.world).
Proof.
  apply (orchestrator_nothing_to_do Ex.copy_ok Ex.b64 [(Ex.fichier_link, Ex.movie)]
           Ex.config_b (Ex.real_debrid Ex.config_b) Ex.world).
  intros c [<-|[]] [Hc _]. specialize (Hc 4%Z eq_refl).
  vm_compute in Hc. exact (Hc eq_refl).
Defined.

Lemma orchestrator_unlocks_in_ranked_order_witness :
  rev (unlock_calls
         (trace (snd (_process_and_cache_links Ex.copy_ok Ex.b64 Ex2.candidates
                        Ex.config_a Ex2.all_debrid Ex.world))))
  = [EvUnrestrict "AllDebrid" Ex.fichier_link;
     EvUnrestrict "AllDebrid" "https://1fichier.com/?twin";
     EvUnrestrict "AllDebrid" Ex.other_link].
Proof.
  assert (Hc : class_name Ex2.all_debrid <> "RealDebrid")
    by (vm_compute; discriminate).
  exact (orchestrator_unlocks_in_ranked_order Ex.copy_ok Ex.b64 Ex2.candidates
           Ex.config_a Ex2.all_debrid Ex.world Hc).
Defined.

Lemma resolved_candidate_is_served_witness :
  fst (_handle_playback Ex.copy_ok Ex.unb64 Ex.parse_config Ex.real_debrid
         "A" (Ex.b64 Ex.fichier_link) (Ex.b64 "Movie.1080p.mkv")
         (snd (_process_and_cache_links Ex.copy_ok Ex.b64
                 [(Ex.fichier_link, Ex.movie)] Ex.config_a
                 (Ex.real_debrid Ex.config_a) Ex.world)))
  = Ok (PStr ("https://rd.example/d/" ++ Ex.copied_link)).
Proof.
  destruct (resolved_candidate_is_served Ex.copy_ok Ex.b64 Ex.unb64 Ex.parse_config
              Ex.real_debrid [(Ex.fichier_link, Ex.movie)] Ex.config_a
              (Ex.real_debrid Ex.config_a) [] [] Ex.fichier_link Ex.movie Ex.world
              (PStr ("https://rd.example/d/" ++ Ex.copied_link))
              eq_refl eq_refl eq_refl eq_refl)
    as (entry & _ & _ & _ & Hplay & Hfresh).
  rewrite (Hplay "A" (Ex.b64 "Movie.1080p.mkv") eq_refl). simpl fst.
  rewrite Hfresh by (intros c []). reflexivity.
Defined.

Lemma playback_link_is_truthy_witness :
  truthy (PStr "https://rd.example/d/cached") = true.
Proof.
  assert (Hplay : cache_playable Ex.world_cached).
  { intros key entry H. unfold Ex.world_cached in H. simpl in H.
    apply lookup_singleton_Some in H as [_ <-]. reflexivity. }
  exact (playback_link_is_truthy Ex.copy_ok Ex.unb64 Ex.parse_config Ex.real_debrid
           "A" (Ex.b64 Ex.fichier_link) (Ex.b64 "Movie.1080p.mkv")
           Ex.world_cached Ex.world_cached (PStr "https://rd.example/d/cached")
           Hplay eq_refl).
Defined.

Lemma enriched_candidate_witness :
  data_of Ex.detect_quality
    (info_map_of (file_infos_of Ex2.get_file_info_ok [Ex.fichier_link; Ex.other_link]))
    Ex.fichier_link
  = {| data_link := Ex.fichier_link; filesize := 1; quality := "1080p";
       nombre_fichero := Some "Movie.1080p.mkv" |}.
Proof.
  assert (Hlater : forall j l t, (0 < j)%nat ->
             tasks_of [Ex.fichier_link; Ex.other_link] !! j = Some l ->
             Ex2.get_file_info_ok j l = Ok t -> t.2 <> Ex.fichier_link).
  { intros j l t Hj H _. destruct j as [|j]; [lia|].
    vm_compute in H. discriminate H. }
  apply (enriched_candidate Ex.detect_quality Ex2.get_file_info_ok
           [Ex.fichier_link; Ex.other_link] 0 Ex.fichier_link (PStr "OK")
           {| size := Some 1%Z; filename := Some "Movie.1080p.mkv" |}
           eq_refl eq_refl Hlater).
  left. reflexivity.
Defined.

Lemma availability_check_witness :
  check_real_debrid_1fichier_availability Ex2.lower "token" (Ok Ex2.hosts_down) None
  = Some "down"
  /\ fichier_is_up
       (check_real_debrid_1fichier_availability Ex2.lower "token"
          (Ok Ex2.hosts_down) None)
     = false.
Proof.
  destruct (availability_check Ex2.lower "token" (Ok Ex2.hosts_down) None)
    as [_ H].
  destruct (H eq_refl) as [_ Hiff].
  split; [reflexivity|].
  apply Hiff.
  exists [("uptobox.com", PDict [("status", PStr "up")])], "1Fichier.com",
    (PDict [("status", PStr "Down")]),
    [("alterupload.com (1fichier)", PDict [("status", PStr "up")])].
  split; [reflexivity|]. split; [repeat constructor|]. split; [reflexivity|].
  exists [("status", PStr "Down")], "Down".
  split; [reflexivity|]. split; [reflexivity|]. vm_compute. discriminate.
Defined.

Lemma ranked_results_of_sorted_witness :
  ranked_results
    [(Ex.fichier_link, Ex.movie); ("https://1fichier.com/?twin", Ex.twin);
     ("https://1fichier.com/?cam", Ex.cam); (Ex.other_link, Ex.small)]
    Ex.config_a
  = filter (survives Ex.config_a)
      [(Ex.fichier_link, Ex.movie); ("https://1fichier.com/?twin", Ex.twin);
       ("https://1fichier.com/?cam", Ex.cam); (Ex.other_link, Ex.small)].
Proof.
  apply (ranked_results_of_sorted
           [(Ex.fichier_link, Ex.movie); ("https://1fichier.com/?twin", Ex.twin);
            ("https://1fichier.com/?cam", Ex.cam); (Ex.other_link, Ex.small)]
           Ex.config_a).
  repeat constructor; unfold by_size_desc; vm_compute; discriminate.
Defined.

Lemma ranked_results_ceiling_monotone_witness :
  In ("https://1fichier.com/?cam", Ex.cam)
     (ranked_results [("https://1fichier.com/?cam", Ex.cam)] Ex2.config_b10).
Proof.
  apply (ranked_results_ceiling_monotone [("https://1fichier.com/?cam", Ex.cam)]
           Ex.config_b Ex2.config_b10 4%Z ("https://1fichier.com/?cam", Ex.cam)
           eq_refl eq_refl).
  - intros max_size' H. injection H as <-. vm_compute. discriminate.
  - vm_compute. left. reflexivity.
Defined.

